(** * Model resource lifecycle of the image generation service

    A shallow embedding of [core/models_loader.py] (device choice, token
    resolution, quantization configuration, the three cached pipelines and
    their unloading), of the settings lookups it performs through
    [setting_api/settings_management.py], and of the three callers in
    [core/ml_models.py] that borrow a pipeline and clean it up afterwards.

    Python objects have identity: a pipeline is a cell of a heap and the
    module globals hold references (heap addresses) or [None].  Everything
    the code asks of the outside world (the torch capabilities, the process
    environment, the settings file, and whether a call into the diffusers
    library raises) is gathered in a [Host] that is passed to every call,
    so that it may differ from one call to the next. *)

From Stdlib Require Import QArith Qcanon.
From stdpp Require Import base gmap strings list numbers.

(** ** Values of the settings file *)

(** What [json.load] produces.  A JSON [null] and an absent key both read
    as Python's [None] through [dict.get]. *)
#[local] Unset Elimination Schemes.
Inductive Json : Type :=
  | JNull
  | JBool (b : bool)
  | JInt (z : Z)
  | JFloat (q : Qc)
  | JStr (s : string)
  | JList (l : list Json)
  | JDict (d : list (string * Json)).
#[local] Set Elimination Schemes.

(** Python's [v == True]: booleans are integers, so [1] and [1.0] are equal
    to [True] as well. *)
Definition eq_True (v : Json) : bool :=
  match v with
  | JBool b => b
  | JInt z => bool_decide (z = 1%Z)
  | JFloat q => bool_decide (q = 1%Qc)
  | _ => false
  end.

(** Python's [v == s] for a string literal [s]. *)
Definition eq_str (v : Json) (s : string) : bool :=
  match v with
  | JStr t => bool_decide (t = s)
  | _ => false
  end.

(** ** Devices, precisions, configurations and pipelines *)

Inductive Device : Type := Cuda | Xpu | Cpu.

Inductive Dtype : Type := float16 | float32.

(** The three pipeline classes: [AutoPipelineForText2Image],
    [AutoPipelineForImage2Image] and [StableDiffusionUpscalePipeline]. *)
Inductive Category : Type := TextToImage | ImageEditing | Upscaler.

#[global] Instance Device_eq_dec : EqDecision Device.
Proof. solve_decision. Defined.
#[global] Instance Dtype_eq_dec : EqDecision Dtype.
Proof. solve_decision. Defined.
#[global] Instance Category_eq_dec : EqDecision Category.
Proof. solve_decision. Defined.

(** The keyword arguments typed in the call of [BitsAndBytesConfig], under
    the names the code types them.  What the library makes of them is not
    modelled: the object it builds, whether it knows a keyword (the code
    types [bnb_4bit_compute_type]), and whether the call raises (it needs
    bitsandbytes to be installed) are the library's. *)
Record BnbConfig : Type := {
  load_in_4bit : bool;
  bnb_4bit_quant_type : string;
  bnb_4bit_use_double_quant : bool;
  bnb_4bit_compute_type : Dtype
}.

(** The arguments of [SD3Transformer2DModel.from_pretrained]. *)
Record Transformer : Type := {
  tr_model_id : string;
  tr_quantization_config : BnbConfig;
  tr_subfolder : string;
  tr_token : option string;
  tr_torch_dtype : Dtype;
  tr_use_safetensors : bool
}.

(** A pipeline object: the arguments of its [from_pretrained] and what the
    loader has called on it since.  [pipe_device] is the target of the last
    [.to(...)], [None] before the first one. *)
Record Pipeline : Type := {
  pipe_class : Category;
  pipe_model_id : string;
  pipe_torch_dtype : Dtype;
  pipe_token : option string;
  pipe_use_safetensors : bool;
  pipe_transformer : option Transformer;
  pipe_cpu_offload : bool;
  pipe_vae_tiling : bool;
  pipe_vae_slicing : bool;
  pipe_device : option Device
}.

Definition with_cpu_offload (p : Pipeline) : Pipeline :=
  {| pipe_class := pipe_class p; pipe_model_id := pipe_model_id p;
     pipe_torch_dtype := pipe_torch_dtype p; pipe_token := pipe_token p;
     pipe_use_safetensors := pipe_use_safetensors p;
     pipe_transformer := pipe_transformer p;
     pipe_cpu_offload := true;
     pipe_vae_tiling := pipe_vae_tiling p;
     pipe_vae_slicing := pipe_vae_slicing p;
     pipe_device := pipe_device p |}.

Definition with_vae_tiling (p : Pipeline) : Pipeline :=
  {| pipe_class := pipe_class p; pipe_model_id := pipe_model_id p;
     pipe_torch_dtype := pipe_torch_dtype p; pipe_token := pipe_token p;
     pipe_use_safetensors := pipe_use_safetensors p;
     pipe_transformer := pipe_transformer p;
     pipe_cpu_offload := pipe_cpu_offload p;
     pipe_vae_tiling := true;
     pipe_vae_slicing := pipe_vae_slicing p;
     pipe_device := pipe_device p |}.

Definition with_vae_slicing (p : Pipeline) : Pipeline :=
  {| pipe_class := pipe_class p; pipe_model_id := pipe_model_id p;
     pipe_torch_dtype := pipe_torch_dtype p; pipe_token := pipe_token p;
     pipe_use_safetensors := pipe_use_safetensors p;
     pipe_transformer := pipe_transformer p;
     pipe_cpu_offload := pipe_cpu_offload p;
     pipe_vae_tiling := pipe_vae_tiling p;
     pipe_vae_slicing := true;
     pipe_device := pipe_device p |}.

Definition with_device (d : Device) (p : Pipeline) : Pipeline :=
  {| pipe_class := pipe_class p; pipe_model_id := pipe_model_id p;
     pipe_torch_dtype := pipe_torch_dtype p; pipe_token := pipe_token p;
     pipe_use_safetensors := pipe_use_safetensors p;
     pipe_transformer := pipe_transformer p;
     pipe_cpu_offload := pipe_cpu_offload p;
     pipe_vae_tiling := pipe_vae_tiling p;
     pipe_vae_slicing := pipe_vae_slicing p;
     pipe_device := Some d |}.

(** ** Exceptions *)

(** [LibraryError] is whatever a call into torch or diffusers raises;
    [RuntimeError msg cause] is [raise RuntimeError(msg) from cause]. *)
#[local] Unset Elimination Schemes.
Inductive Exn : Type :=
  | LibraryError (what : string)
  | RuntimeError (msg : string) (cause : option Exn).
#[local] Set Elimination Schemes.

(** ** The outside world at the time of a call *)

Record Host : Type := {
  (** [torch.cuda.is_available()] *)
  cuda_is_available : bool;
  (** [hasattr(torch, "xpu") and torch.xpu.is_available()] *)
  xpu_is_available : bool;
  (** [os.environ] *)
  environ : gmap string string;
  (** the dictionary stored in [application_settings.json] *)
  settings : gmap string Json;
  (** the exception, if any, raised by each library call *)
  transformer_from_pretrained_raises : Transformer -> option Exn;
  pipeline_from_pretrained_raises : Pipeline -> option Exn;
  enable_model_cpu_offload_raises : Pipeline -> option Exn;
  enable_vae_tiling_raises : Pipeline -> option Exn;
  enable_vae_slicing_raises : Pipeline -> option Exn;
  to_raises : Pipeline -> Device -> option Exn;
  call_raises : Pipeline -> option Exn
}.

(** ** The module state *)

(** The six module globals, and the heap of pipeline objects built so far
    (one cell per completed [from_pretrained] of a pipeline class; the
    address of a cell is its index).  A cell no global refers to any more is
    garbage: it stays in the list, which therefore also counts the
    constructions. *)
Record State : Type := {
  _model : option nat;
  _model_id : option string;
  _image_editing_model : option nat;
  _image_editing_model_id : option string;
  _upscaler_model : option nat;
  _upscaler_model_id : option string;
  heap : list Pipeline
}.

Definition initial_state : State :=
  {| _model := None; _model_id := None;
     _image_editing_model := None; _image_editing_model_id := None;
     _upscaler_model := None; _upscaler_model_id := None;
     heap := [] |}.

Definition set_model (v : option nat) (st : State) : State :=
  {| _model := v; _model_id := _model_id st;
     _image_editing_model := _image_editing_model st;
     _image_editing_model_id := _image_editing_model_id st;
     _upscaler_model := _upscaler_model st;
     _upscaler_model_id := _upscaler_model_id st;
     heap := heap st |}.

Definition set_model_id (v : option string) (st : State) : State :=
  {| _model := _model st; _model_id := v;
     _image_editing_model := _image_editing_model st;
     _image_editing_model_id := _image_editing_model_id st;
     _upscaler_model := _upscaler_model st;
     _upscaler_model_id := _upscaler_model_id st;
     heap := heap st |}.

Definition set_image_editing_model (v : option nat) (st : State) : State :=
  {| _model := _model st; _model_id := _model_id st;
     _image_editing_model := v;
     _image_editing_model_id := _image_editing_model_id st;
     _upscaler_model := _upscaler_model st;
     _upscaler_model_id := _upscaler_model_id st;
     heap := heap st |}.

Definition set_image_editing_model_id (v : option string) (st : State) : State :=
  {| _model := _model st; _model_id := _model_id st;
     _image_editing_model := _image_editing_model st;
     _image_editing_model_id := v;
     _upscaler_model := _upscaler_model st;
     _upscaler_model_id := _upscaler_model_id st;
     heap := heap st |}.

Definition set_upscaler_model (v : option nat) (st : State) : State :=
  {| _model := _model st; _model_id := _model_id st;
     _image_editing_model := _image_editing_model st;
     _image_editing_model_id := _image_editing_model_id st;
     _upscaler_model := v;
     _upscaler_model_id := _upscaler_model_id st;
     heap := heap st |}.

Definition set_upscaler_model_id (v : option string) (st : State) : State :=
  {| _model := _model st; _model_id := _model_id st;
     _image_editing_model := _image_editing_model st;
     _image_editing_model_id := _image_editing_model_id st;
     _upscaler_model := _upscaler_model st;
     _upscaler_model_id := v;
     heap := heap st |}.

Definition set_heap (v : list Pipeline) (st : State) : State :=
  {| _model := _model st; _model_id := _model_id st;
     _image_editing_model := _image_editing_model st;
     _image_editing_model_id := _image_editing_model_id st;
     _upscaler_model := _upscaler_model st;
     _upscaler_model_id := _upscaler_model_id st;
     heap := v |}.

(** ** Computations that read and write the state and may raise *)

Definition M (A : Type) : Type := State -> State * (Exn + A).

#[global] Instance M_ret : MRet M := fun A a st => (st, inr a).

#[global] Instance M_bind : MBind M := fun A B k m st =>
  match m st with
  | (st', inr a) => k a st'
  | (st', inl e) => (st', inl e)
  end.

Definition raise {A : Type} (e : Exn) : M A := fun st => (st, inl e).

(** [try: body except Exception as e: handler e] *)
Definition try_except {A : Type} (body : M A) (handler : Exn -> M A) : M A :=
  fun st =>
    match body st with
    | (st', inl e) => handler e st'
    | (st', inr a) => (st', inr a)
    end.

Definition get_state : M State := fun st => (st, inr st).

Definition assign (f : State -> State) : M unit := fun st => (f st, inr tt).

(** A library call that touches no object of the model. *)
Definition library_call (outcome : option Exn) : M unit :=
  match outcome with
  | Some e => raise e
  | None => mret tt
  end.

(** A successful [from_pretrained] of a pipeline class allocates a cell. *)
Definition from_pretrained (h : Host) (p : Pipeline) : M nat :=
  fun st =>
    match pipeline_from_pretrained_raises h p with
    | Some e => (st, inl e)
    | None => (set_heap (heap st ++ [p]) st, inr (length (heap st)))
    end.

(** A method called on the object at address [a]: it raises what the host
    says for the object as it is now, or else changes the object in place.
    (A reference always points to a cell; on a dangling address the method
    does nothing.) *)
Definition method (a : nat) (raises : Pipeline -> option Exn)
    (effect : Pipeline -> Pipeline) : M unit :=
  fun st =>
    match heap st !! a with
    | Some p =>
        match raises p with
        | Some e => (st, inl e)
        | None => (set_heap (<[a := effect p]> (heap st)) st, inr tt)
        end
    | None => (st, inr tt)
    end.

Definition enable_model_cpu_offload (h : Host) (a : nat) : M unit :=
  method a (enable_model_cpu_offload_raises h) with_cpu_offload.

Definition enable_vae_tiling (h : Host) (a : nat) : M unit :=
  method a (enable_vae_tiling_raises h) with_vae_tiling.

Definition enable_vae_slicing (h : Host) (a : nat) : M unit :=
  method a (enable_vae_slicing_raises h) with_vae_slicing.

(** [pipeline.to(device)]; it returns the pipeline itself. *)
Definition to (h : Host) (a : nat) (d : Device) : M unit :=
  method a (fun p => to_raises h p d) (with_device d).

(** Invoking the pipeline on its keyword arguments: the generation itself,
    which leaves the loader's globals alone. *)
Definition call (h : Host) (a : nat) : M unit :=
  method a (call_raises h) (fun p => p).

(** ** setting_api/settings_management.py *)

(** [get_setting(key)]: [settings.get(key)], [None] for an absent key. *)
Definition get_setting (h : Host) (key : string) : Json :=
  default JNull (settings h !! key).

(** ** core/models_loader.py *)

Definition get_device (h : Host) : Device :=
  if cuda_is_available h then Cuda
  else if xpu_is_available h then Xpu
  else Cpu.

(** Python's truth value of an optional string: [None] and the empty
    string are false. *)
Definition truthy (v : option string) : bool :=
  match v with
  | Some s => negb (bool_decide (s = ""))
  | None => false
  end.

(** The loop of [resolve_hf_token] over the names of the environment
    variables. *)
Fixpoint first_env_token (env : gmap string string) (env_vars : list string)
    : option string :=
  match env_vars with
  | [] => None
  | env_var :: rest =>
      let val := env !! env_var in
      if truthy val then val else first_env_token env rest
  end.

Definition token_env_vars : list string :=
  ["HUGGINGFACE_HUB_TOKEN"; "HF_HUB_TOKEN"; "HF_TOKEN"; "HUGGINGFACE_TOKEN"].

Definition resolve_hf_token (h : Host) (hf_token : option string)
    : option string :=
  if truthy hf_token then hf_token
  else first_env_token (environ h) token_env_vars.

Definition is_use_cpu_offload_enabled (h : Host) : bool :=
  eq_True (get_setting h "use_cpu_offloading").

Definition is_model_retentation_reload (h : Host) : bool :=
  eq_str (get_setting h "model_load_retentation_strategy") "reload".

(** The keywords [get_bnb_4bit_config] types, on each branch of its test. *)
Definition get_bnb_4bit_config (h : Host) : BnbConfig :=
  if cuda_is_available h then
    {| load_in_4bit := true;
       bnb_4bit_quant_type := "nf4";
       bnb_4bit_use_double_quant := true;
       bnb_4bit_compute_type := float16 |}
  else
    {| load_in_4bit := true;
       bnb_4bit_quant_type := "nf4";
       bnb_4bit_use_double_quant := false;
       bnb_4bit_compute_type := float32 |}.

(** [torch.float16 if device == "cuda" else torch.float32], and the
    [device == "cuda" and torch.float16 or torch.float32] of the
    transformer, which chooses the same way. *)
Definition dtype_for (device : Device) : Dtype :=
  match device with
  | Cuda => float16
  | _ => float32
  end.

Definition create_sd3_transformer_2d_model_4bit (h : Host) (model_id : string)
    (hf_token : option string) : M Transformer :=
  let token := resolve_hf_token h hf_token in
  let model :=
    {| tr_model_id := model_id;
       tr_quantization_config := get_bnb_4bit_config h;
       tr_subfolder := "transformer";
       tr_token := token;
       tr_torch_dtype := dtype_for (get_device h);
       tr_use_safetensors := true |} in
  library_call (transformer_from_pretrained_raises h model);;
  mret model.

(** [model is not None and model_id_global == model_id] *)
Definition cache_hit (model : option nat) (loaded : option string)
    (model_id : string) : option nat :=
  match model with
  | Some m => if bool_decide (loaded = Some model_id) then Some m else None
  | None => None
  end.

(** [model is not None and model_id_global != model_id] *)
Definition is_switch (model : option nat) (loaded : option string)
    (model_id : string) : bool :=
  match model with
  | Some _ => negb (bool_decide (loaded = Some model_id))
  | None => false
  end.

(** A pipeline as [from_pretrained] returns it. *)
Definition pretrained (c : Category) (model_id : string) (device : Device)
    (token : option string) (transformer : option Transformer) : Pipeline :=
  {| pipe_class := c;
     pipe_model_id := model_id;
     pipe_torch_dtype := dtype_for device;
     pipe_token := token;
     pipe_use_safetensors := true;
     pipe_transformer := transformer;
     pipe_cpu_offload := false;
     pipe_vae_tiling := false;
     pipe_vae_slicing := false;
     pipe_device := None |}.

Definition get_or_load_model (h : Host) (model_id : string)
    (hf_token : option string) : M nat :=
  st ← get_state;
  match cache_hit (_model st) (_model_id st) model_id with
  | Some cached => mret cached
  | None =>
      (if is_switch (_model st) (_model_id st) model_id
       then assign (set_model None) else mret tt);;
      try_except
        (let device := get_device h in
         let token := resolve_hf_token h hf_token in
         transformer ← create_sd3_transformer_2d_model_4bit h model_id hf_token;
         _inner_model ←
           from_pretrained h
             (pretrained TextToImage model_id device token (Some transformer));
         (if is_use_cpu_offload_enabled h
          then enable_model_cpu_offload h _inner_model;;
               to h _inner_model Cpu
          else to h _inner_model device);;
         assign (set_model_id (Some model_id));;
         if negb (is_model_retentation_reload h)
         then assign (set_model (Some _inner_model));; mret _inner_model
         else assign (set_model None);; mret _inner_model)
        (fun e =>
           assign (set_model None);;
           assign (set_model_id None);;
           raise (RuntimeError ("Could not load model '" +:+ model_id +:+ "'.")
                    (Some e)))
  end.

Definition get_or_load_image_editing_model (h : Host) (model_id : string)
    (hf_token : option string) : M nat :=
  st ← get_state;
  match cache_hit (_image_editing_model st) (_image_editing_model_id st)
          model_id with
  | Some cached => mret cached
  | None =>
      (if is_switch (_image_editing_model st) (_image_editing_model_id st)
            model_id
       then assign (set_image_editing_model None) else mret tt);;
      try_except
        (let device := get_device h in
         let token := resolve_hf_token h hf_token in
         transformer ← create_sd3_transformer_2d_model_4bit h model_id hf_token;
         _inner_model ←
           from_pretrained h
             (pretrained ImageEditing model_id device token (Some transformer));
         (if is_use_cpu_offload_enabled h
          then enable_model_cpu_offload h _inner_model;;
               to h _inner_model Cpu
          else to h _inner_model device);;
         assign (set_image_editing_model_id (Some model_id));;
         if negb (is_model_retentation_reload h)
         then assign (set_image_editing_model (Some _inner_model));;
              mret _inner_model
         else assign (set_image_editing_model None);; mret _inner_model)
        (fun e =>
           assign (set_image_editing_model None);;
           assign (set_image_editing_model_id None);;
           raise (RuntimeError
                    ("Could not load image editing model '" +:+ model_id
                       +:+ "'.")
                    (Some e)))
  end.

(** [str.lower()] on the ASCII letters.  The upscaler loader only asks
    whether the lower-cased identifier contains [sd3]; on that question
    this agrees with Python whatever the identifier, since no character
    outside ASCII lower-cases to [s], [d] or [3]. *)
Definition ascii_lower (c : Ascii.ascii) : Ascii.ascii :=
  let n := Ascii.nat_of_ascii c in
  if (65 <=? n) && (n <=? 90) then Ascii.ascii_of_nat (n + 32) else c.

Fixpoint lower (s : string) : string :=
  match s with
  | EmptyString => EmptyString
  | String c rest => String (ascii_lower c) (lower rest)
  end.

(** [needle in s] *)
Fixpoint contains (needle s : string) : bool :=
  String.prefix needle s ||
  match s with
  | EmptyString => false
  | String _ rest => contains needle rest
  end.

Definition get_or_load_upscaler_model (h : Host) (model_id : string)
    (hf_token : option string) : M nat :=
  st ← get_state;
  match cache_hit (_upscaler_model st) (_upscaler_model_id st) model_id with
  | Some cached => mret cached
  | None =>
      (if is_switch (_upscaler_model st) (_upscaler_model_id st) model_id
       then assign (set_upscaler_model None) else mret tt);;
      try_except
        (let device := get_device h in
         let token := resolve_hf_token h hf_token in
         transformer ←
           (if contains "sd3" (lower model_id)
            then tr ← create_sd3_transformer_2d_model_4bit h model_id hf_token;
                 mret (Some tr)
            else mret None);
         _inner_model ←
           from_pretrained h
             (pretrained Upscaler model_id device token transformer);
         enable_vae_tiling h _inner_model;;
         enable_vae_slicing h _inner_model;;
         to h _inner_model device;;
         assign (set_upscaler_model_id (Some model_id));;
         if negb (is_model_retentation_reload h)
         then assign (set_upscaler_model (Some _inner_model));;
              mret _inner_model
         else assign (set_upscaler_model None);; mret _inner_model)
        (fun e =>
           assign (set_upscaler_model None);;
           assign (set_upscaler_model_id None);;
           raise (RuntimeError
                    ("Could not load upscaler model '" +:+ model_id +:+ "'.")
                    (Some e)))
  end.

Definition unload_models : M unit :=
  st ← get_state;
  (if bool_decide (_model st ≠ None)
   then assign (set_model None);; assign (set_model_id None)
   else mret tt);;
  st ← get_state;
  (if bool_decide (_image_editing_model st ≠ None)
   then assign (set_image_editing_model None);;
        assign (set_image_editing_model_id None)
   else mret tt);;
  st ← get_state;
  (if bool_decide (_upscaler_model st ≠ None)
   then assign (set_upscaler_model None);;
        assign (set_upscaler_model_id None)
   else mret tt).

(** [model] is any Python value: a reference or [None].  The pipeline
    classes define no equality of their own, so [==] compares identities,
    and [None == None] holds. *)
Definition unload_model (model : option nat) : M unit :=
  st ← get_state;
  if bool_decide (model = _model st)
  then assign (set_model None);; assign (set_model_id None)
  else if bool_decide (model = _image_editing_model st)
  then assign (set_image_editing_model None);;
       assign (set_image_editing_model_id None)
  else if bool_decide (model = _upscaler_model st)
  then assign (set_upscaler_model None);;
       assign (set_upscaler_model_id None)
  else mret tt.

(** ** core/ml_models.py *)

(** The clean-up every caller performs once it has used the pipeline it
    borrowed: [if models_loader.is_model_retentation_reload():
    models_loader.unload_model(model=borrowed)]. *)
Definition release (h : Host) (borrowed : nat) : M unit :=
  if is_model_retentation_reload h then unload_model (Some borrowed)
  else mret tt.

(** The loaders return an object or raise, so the callers' test
    [if _model is None: raise RuntimeError(...)] never fires; the handler
    of each caller logs and raises the same exception again.  The prompt,
    the images and the other arguments of the generation play no part in
    the life of the pipelines and are left out. *)
Definition generate_text_to_image (h : Host) (model_id : string) : M unit :=
  _model ← get_or_load_model h model_id None;
  try_except (call h _model;; release h _model) raise.

Definition generate_image_to_image (h : Host) (model_id : string) : M unit :=
  _model ← get_or_load_image_editing_model h model_id None;
  try_except (call h _model;; release h _model) raise.

Definition upscale_image (h : Host) : M unit :=
  try_except
    (let device := get_device h in
     upscaler ←
       get_or_load_upscaler_model h "stabilityai/stable-diffusion-x4-upscaler"
         None;
     to h upscaler device;;
     call h upscaler;;
     release h upscaler)
    raise.

(** ** The slots, by category *)

Definition acquire (h : Host) (c : Category) (identifier : string)
    (token : option string) : M nat :=
  match c with
  | TextToImage => get_or_load_model h identifier token
  | ImageEditing => get_or_load_image_editing_model h identifier token
  | Upscaler => get_or_load_upscaler_model h identifier token
  end.

Definition instance (c : Category) (st : State) : option nat :=
  match c with
  | TextToImage => _model st
  | ImageEditing => _image_editing_model st
  | Upscaler => _upscaler_model st
  end.

Definition loaded_identifier (c : Category) (st : State) : option string :=
  match c with
  | TextToImage => _model_id st
  | ImageEditing => _image_editing_model_id st
  | Upscaler => _upscaler_model_id st
  end.

(** The word of each loader's error message. *)
Definition load_error_message (c : Category) (identifier : string) : string :=
  match c with
  | TextToImage => "Could not load model '" +:+ identifier +:+ "'."
  | ImageEditing =>
      "Could not load image editing model '" +:+ identifier +:+ "'."
  | Upscaler => "Could not load upscaler model '" +:+ identifier +:+ "'."
  end.

Definition set_loaded_identifier (c : Category) (v : option string)
    (st : State) : State :=
  match c with
  | TextToImage => set_model_id v st
  | ImageEditing => set_image_editing_model_id v st
  | Upscaler => set_upscaler_model_id v st
  end.

(** A slot caches nothing when its instance field is [None]: that is what
    every test of the code looks at ([_model is not None] before a hit, a
    switch and an unload).  The identifier such a slot may still record is
    never read (lemma [identifier_of_empty_slot_is_dead]). *)
Definition caches_nothing (c : Category) (st : State) : Prop :=
  instance c st = None.

(** A slot is empty when both its fields are cleared: no cached instance
    and no loaded identifier. *)
Definition Empty (c : Category) (st : State) : Prop :=
  instance c st = None ∧ loaded_identifier c st = None.

(** The number of pipelines constructed so far. *)
Definition construction_count (st : State) : nat := length (heap st).

(** ** Sequences of operations *)

Inductive Op : Type :=
  | OpAcquire (h : Host) (c : Category) (identifier : string)
      (token : option string)
  | OpRelease (h : Host) (borrowed : nat)
  | OpUnload (model : option nat)
  | OpUnloadAll
  | OpGenerateTextToImage (h : Host) (model_id : string)
  | OpGenerateImageToImage (h : Host) (model_id : string)
  | OpUpscaleImage (h : Host).

(** The state an operation leaves, whether it returns or raises. *)
Definition step (st : State) (op : Op) : State :=
  match op with
  | OpAcquire h c identifier token => (acquire h c identifier token st).1
  | OpRelease h borrowed => (release h borrowed st).1
  | OpUnload model => (unload_model model st).1
  | OpUnloadAll => (unload_models st).1
  | OpGenerateTextToImage h model_id => (generate_text_to_image h model_id st).1
  | OpGenerateImageToImage h model_id =>
      (generate_image_to_image h model_id st).1
  | OpUpscaleImage h => (upscale_image h st).1
  end.

Definition run (ops : list Op) (st : State) : State := foldl step st ops.

(** The states the service can be in. *)
Definition reachable (st : State) : Prop :=
  ∃ ops, st = run ops initial_state.

(** A host on which nothing raises. *)
Definition quiet_host (cuda xpu : bool) (env : gmap string string)
    (cfg : gmap string Json) : Host :=
  {| cuda_is_available := cuda;
     xpu_is_available := xpu;
     environ := env;
     settings := cfg;
     transformer_from_pretrained_raises := fun _ => None;
     pipeline_from_pretrained_raises := fun _ => None;
     enable_model_cpu_offload_raises := fun _ => None;
     enable_vae_tiling_raises := fun _ => None;
     enable_vae_slicing_raises := fun _ => None;
     to_raises := fun _ _ => None;
     call_raises := fun _ => None |}.

(** A host on which building a pipeline raises [e]. *)
Definition failing_host (e : Exn) (cfg : gmap string Json) : Host :=
  {| cuda_is_available := false;
     xpu_is_available := false;
     environ := ∅;
     settings := cfg;
     transformer_from_pretrained_raises := fun _ => None;
     pipeline_from_pretrained_raises := fun _ => Some e;
     enable_model_cpu_offload_raises := fun _ => None;
     enable_vae_tiling_raises := fun _ => None;
     enable_vae_slicing_raises := fun _ => None;
     to_raises := fun _ _ => None;
     call_raises := fun _ => None |}.

Definition keep_settings : gmap string Json :=
  {[ "model_load_retentation_strategy" := JStr "keep" ]}.

Definition reload_settings : gmap string Json :=
  {[ "model_load_retentation_strategy" := JStr "reload" ]}.

Definition offload_settings : gmap string Json :=
  {[ "use_cpu_offloading" := JBool true ]}.

(** Settings that spell the retention key the way the dictionary does. *)
Definition respelled_settings : gmap string Json :=
  {[ "model_load_retention_strategy" := JStr "reload" ]}.

Definition keep_host : Host := quiet_host true false ∅ keep_settings.

Definition reload_host : Host := quiet_host true false ∅ reload_settings.

Definition offload_host : Host := quiet_host true false ∅ offload_settings.

(** A machine with an XPU and no CUDA device. *)
Definition xpu_host : Host := quiet_host false true ∅ ∅.

(** A process whose environment provides a token. *)
Definition token_host : Host :=
  quiet_host false false {[ "HF_TOKEN" := "E" ]} ∅.

Definition offline_host : Host :=
  failing_host (LibraryError "offline") ∅.

(** A host on which the generation raises [e] and nothing else does. *)
Definition call_failing_host (e : Exn) (cfg : gmap string Json) : Host :=
  {| cuda_is_available := false;
     xpu_is_available := false;
     environ := ∅;
     settings := cfg;
     transformer_from_pretrained_raises := fun _ => None;
     pipeline_from_pretrained_raises := fun _ => None;
     enable_model_cpu_offload_raises := fun _ => None;
     enable_vae_tiling_raises := fun _ => None;
     enable_vae_slicing_raises := fun _ => None;
     to_raises := fun _ _ => None;
     call_raises := fun _ => Some e |}.

(** ** Vocabulary of the properties *)

Inductive RetentionPolicy : Type := Keep | Reload.

(** The policy in force at a call, as the code reads it from the settings. *)
Definition retention (h : Host) : RetentionPolicy :=
  if is_model_retentation_reload h then Reload else Keep.

(** The slots other than [c] are exactly as they were. *)
Definition others_unchanged (c : Category) (st st' : State) : Prop :=
  ∀ c', c' ≠ c →
    instance c' st' = instance c' st ∧
    loaded_identifier c' st' = loaded_identifier c' st.

(** [e] is an exception that a library call of a loader raises on [h]. *)
Definition library_raises (h : Host) (e : Exn) : Prop :=
  (∃ t, transformer_from_pretrained_raises h t = Some e) ∨
  (∃ p, pipeline_from_pretrained_raises h p = Some e) ∨
  (∃ p, enable_model_cpu_offload_raises h p = Some e) ∨
  (∃ p, enable_vae_tiling_raises h p = Some e) ∨
  (∃ p, enable_vae_slicing_raises h p = Some e) ∨
  (∃ p d, to_raises h p d = Some e).

(** Whether a loader of category [c] looks at the offload setting at all,
    and finds it enabled. *)
Definition offload_applies (h : Host) (c : Category) : bool :=
  match c with
  | Upscaler => false
  | _ => is_use_cpu_offload_enabled h
  end.

(** The request misses the cache of its slot. *)
Definition miss (c : Category) (identifier : string) (st : State) : Prop :=
  cache_hit (instance c st) (loaded_identifier c st) identifier = None.

(** The three ways an [acquire] can end. *)
Inductive acquire_outcome (h : Host) (c : Category) (identifier : string)
    (st : State) : State * (Exn + nat) → Prop :=
  | outcome_hit a :
      instance c st = Some a →
      loaded_identifier c st = Some identifier →
      acquire_outcome h c identifier st (st, inr a)
  | outcome_loaded st' p :
      miss c identifier st →
      heap st' = heap st ++ [p] →
      instance c st' =
        match retention h with
        | Keep => Some (length (heap st))
        | Reload => None
        end →
      loaded_identifier c st' = Some identifier →
      others_unchanged c st st' →
      pipe_class p = c →
      pipe_model_id p = identifier →
      pipe_cpu_offload p = offload_applies h c →
      pipe_device p =
        Some (if offload_applies h c then Cpu else get_device h) →
      acquire_outcome h c identifier st (st', inr (length (heap st)))
  | outcome_failed st' cause :
      miss c identifier st →
      library_raises h cause →
      instance c st' = None →
      loaded_identifier c st' = None →
      others_unchanged c st st' →
      length (heap st) ≤ length (heap st') →
      acquire_outcome h c identifier st
        (st', inl (RuntimeError (load_error_message c identifier) (Some cause))).

(** Every reference held by a slot points into the heap. *)
Definition well_formed (st : State) : Prop :=
  ∀ c a, instance c st = Some a → a < length (heap st).

(** A slot that caches an instance records its identifier. *)
Definition instance_has_identifier (st : State) : Prop :=
  ∀ c, is_Some (instance c st) → is_Some (loaded_identifier c st).

(** [m] keeps [P], whether it returns or raises. *)
Definition preserves {A : Type} (P : State → Prop) (m : M A) : Prop :=
  ∀ st, P st → P (m st).1.

Example acquire_keep_example :
  acquire (quiet_host true false ∅ keep_settings) TextToImage "model-A" None
    initial_state
  = (set_heap
       [with_device Cuda
          (pretrained TextToImage "model-A" Cuda None
             (Some {| tr_model_id := "model-A";
                      tr_quantization_config :=
                        get_bnb_4bit_config
                          (quiet_host true false ∅ keep_settings);
                      tr_subfolder := "transformer";
                      tr_token := None;
                      tr_torch_dtype := float16;
                      tr_use_safetensors := true |}))]
       (set_model (Some 0) (set_model_id (Some "model-A") initial_state)),
     inr 0).
Proof. vm_compute. reflexivity. Qed.


(** ** setting_api/settings_management.py, on the file itself *)

Module SettingsFile.

(** The file [application_settings.json]: absent, or holding the
    dictionary that the last [json.dump] wrote.  (A file that holds
    anything else makes every function below raise, and is left out.) *)
Definition Disk : Type := option (gmap string Json).

(** [json.load] of a file that exists. *)
Definition load (d : Disk) : gmap string Json := default ∅ d.

Definition is_preference_file_exists (d : Disk) : bool :=
  match d with
  | Some _ => true
  | None => false
  end.

Definition create_preference_file_if_not_exists (d : Disk) : Disk * bool :=
  if negb (is_preference_file_exists d) then (Some ∅, true) else (d, false).

Definition add_setting (key : string) (value : Json) (d : Disk)
    : Disk * bool :=
  let d := (create_preference_file_if_not_exists d).1 in
  let settings := load d in
  let settings := <[key := value]> settings in
  (Some settings, true).

Definition get_setting (key : string) (d : Disk) : Disk * Json :=
  let d := (create_preference_file_if_not_exists d).1 in
  let settings := load d in
  (d, default JNull (settings !! key)).

Definition remove_setting (key : string) (d : Disk) : Disk * bool :=
  let d := (create_preference_file_if_not_exists d).1 in
  let settings := load d in
  if bool_decide (is_Some (settings !! key))
  then (Some (delete key settings), true)
  else (d, false).

Definition update_setting (key : string) (value : Json) (d : Disk)
    : Disk * bool :=
  let d := (create_preference_file_if_not_exists d).1 in
  let settings := load d in
  if bool_decide (is_Some (settings !! key))
  then (Some (<[key := value]> settings), true)
  else (d, false).

Definition add_or_update_setting (key : string) (value : Json) (d : Disk)
    : Disk * bool :=
  let d := (create_preference_file_if_not_exists d).1 in
  let settings := load d in
  let settings := <[key := value]> settings in
  (Some settings, true).

Definition is_settings_exists (key : string) (d : Disk) : Disk * bool :=
  let d := (create_preference_file_if_not_exists d).1 in
  let settings := load d in
  (d, bool_decide (is_Some (settings !! key))).

Definition get_all_settings (d : Disk) : Disk * gmap string Json :=
  let d := (create_preference_file_if_not_exists d).1 in
  let settings := load d in
  (d, settings).


End SettingsFile.

(** The host whose settings file holds [cfg]. *)
Definition with_settings (h : Host) (cfg : gmap string Json) : Host :=
  {| cuda_is_available := cuda_is_available h;
     xpu_is_available := xpu_is_available h;
     environ := environ h;
     settings := cfg;
     transformer_from_pretrained_raises := transformer_from_pretrained_raises h;
     pipeline_from_pretrained_raises := pipeline_from_pretrained_raises h;
     enable_model_cpu_offload_raises := enable_model_cpu_offload_raises h;
     enable_vae_tiling_raises := enable_vae_tiling_raises h;
     enable_vae_slicing_raises := enable_vae_slicing_raises h;
     to_raises := to_raises h;
     call_raises := call_raises h |}.

(** ** core/security.py *)

Module Security.

(** The file [api_keys.json]: absent; present but yielding no list (it
    cannot be parsed, or its dictionary has no [api_keys] member); or
    holding the list that the last [save_api_keys] wrote. *)
Inductive KeysFile : Type :=
  | NoFile
  | NoList
  | Stored (api_keys : list string).

Definition load_api_keys (f : KeysFile) : list string :=
  match f with
  | Stored api_keys => api_keys
  | _ => []
  end.

(** Opening the file for writing may fail ([writable] is false); the
    exception is logged and swallowed, and the file stays as it was. *)
Definition save_api_keys (writable : bool) (api_keys : list string)
    (f : KeysFile) : KeysFile :=
  if writable then Stored api_keys else f.

(** [list.remove(x)]: the first occurrence goes. *)
Fixpoint remove_first (x : string) (l : list string) : list string :=
  match l with
  | [] => []
  | y :: rest => if bool_decide (y = x) then rest else y :: remove_first x rest
  end.

Definition add_api_key (writable : bool) (api_key : string) (f : KeysFile)
    : KeysFile :=
  let api_keys := load_api_keys f in
  if negb (bool_decide (api_key ∈ api_keys))
  then save_api_keys writable (api_keys ++ [api_key]) f
  else f.

Definition remove_api_key (writable : bool) (api_key : string) (f : KeysFile)
    : KeysFile * bool :=
  let api_keys := load_api_keys f in
  if bool_decide (api_key ∈ api_keys)
  then (save_api_keys writable (remove_first api_key api_keys) f, true)
  else (f, false).

Definition is_valid_api_key (api_key : string) (f : KeysFile) : bool :=
  bool_decide (api_key ∈ load_api_keys f).

Definition get_admin_key (env : gmap string string) : option string :=
  env !! "ADMIN_API_KEY".

(** [generated] is what [secrets.token_urlsafe(32)] returns. *)
Definition create_admin_key (generated : string) (env : gmap string string)
    : gmap string string * string :=
  (<["ADMIN_API_KEY" := generated]> env, generated).

Definition initialize_api_keys (writable : bool) (generated : string)
    (env : gmap string string) (f : KeysFile)
    : gmap string string * KeysFile :=
  let api_keys := load_api_keys f in
  match api_keys with
  | [] =>
      let '(env, admin_key) := create_admin_key generated env in
      (env, add_api_key writable admin_key f)
  | _ :: _ => (env, f)
  end.

End Security.

(** ** The HTTP layer: api/admin_endpoints.py and api/dependencies.py *)

Record HTTPException : Type := {
  status_code : nat;
  detail : string
}.

(** Python's [v == False]. *)
Definition eq_False (v : Json) : bool :=
  match v with
  | JBool b => negb b
  | JInt z => bool_decide (z = 0%Z)
  | JFloat q => bool_decide (q = 0%Qc)
  | _ => false
  end.

Module AdminEndpoints.

Definition validate_admin_key (env : gmap string string)
    (x_api_key : option string) : HTTPException + string :=
  let admin_key := Security.get_admin_key env in
  if negb (truthy admin_key)
  then inl {| status_code := 500;
              detail := "Request Failed with Error Code 0x0" |}
  else
    match x_api_key with
    | Some key =>
        if bool_decide (key = "")
        then inl {| status_code := 401;
                    detail := "Request Failed with Error Code 0x1" |}
        else if bool_decide (x_api_key ≠ admin_key)
        then inl {| status_code := 401;
                    detail := "Request Failed with Error Code 0x2" |}
        else inr key
    | None =>
        inl {| status_code := 401;
               detail := "Request Failed with Error Code 0x1" |}
    end.

(** The body of [set_setting]; [value] is the JSON object of the request
    and [value.get("value")] reads [None] when it has no such member.
    Membership in a list literal is by [==].  The answer of a request that
    passes is its message. *)
Definition set_setting (key : string) (value : gmap string Json)
    (d : SettingsFile.Disk) : SettingsFile.Disk * (HTTPException + string) :=
  let posted := default JNull (value !! "value") in
  let rejected : option HTTPException :=
    if bool_decide (key = "use_cpu_offloading") then
      if negb (eq_True posted || eq_False posted)
      then Some {| status_code := 400;
                   detail := "Invalid value for use_cpu_offloading. " +:+
                             "Must be true or false." |}
      else None
    else if bool_decide (key = "model_load_retentation_strategy") then
      if negb (eq_str posted "keep" || eq_str posted "reload")
      then Some {| status_code := 400;
                   detail := "Invalid value for " +:+
                             "model_load_retentation_strategy. " +:+
                             "Must be 'keep' or 'reload'." |}
      else None
    else None in
  match rejected with
  | Some e => (d, inl e)
  | None =>
      let d := (SettingsFile.add_or_update_setting key posted d).1 in
      (d, inr ("Setting " +:+ key +:+ " updated successfully"))
  end.

(** The bodies of [create_api_key] and [revoke_api_key]; [generated] is
    the key that [generate_api_key()] draws, and a request that passes
    answers its message (and the new key). *)
Definition create_api_key (writable : bool) (generated : string)
    (f : Security.KeysFile)
    : Security.KeysFile * (HTTPException + string * string) :=
  (Security.add_api_key writable generated f,
   inr ("API key created successfully", generated)).

Definition revoke_api_key (writable : bool) (api_key : string)
    (f : Security.KeysFile) : Security.KeysFile * (HTTPException + string) :=
  let '(f, removed) := Security.remove_api_key writable api_key f in
  if removed then (f, inr "API key revoked successfully")
  else (f, inl {| status_code := 404; detail := "API key not found" |}).

(** The body of [get_setting_endpoint]; a request that passes answers the
    key and its value. *)
Definition get_setting_endpoint (key : string) (d : SettingsFile.Disk)
    : SettingsFile.Disk * (HTTPException + string * Json) :=
  let '(d, value) := SettingsFile.get_setting key d in
  match value with
  | JNull => (d, inl {| status_code := 404;
                        detail := "Setting " +:+ key +:+ " not found" |})
  | _ => (d, inr (key, value))
  end.

End AdminEndpoints.

Module Dependencies.

Definition validate_api_key (f : Security.KeysFile)
    (x_api_key : option string) : HTTPException + string :=
  match x_api_key with
  | Some key =>
      if bool_decide (key = "")
      then inl {| status_code := 401;
                  detail := "API key is required in X-API-KEY header" |}
      else if negb (Security.is_valid_api_key key f)
      then inl {| status_code := 401; detail := "Invalid API key" |}
      else inr key
  | None =>
      inl {| status_code := 401;
             detail := "API key is required in X-API-KEY header" |}
  end.

Definition validate_admin_key (env : gmap string string)
    (x_api_key : option string) : HTTPException + string :=
  let admin_key := Security.get_admin_key env in
  if negb (truthy admin_key)
  then inl {| status_code := 500; detail := "Admin key not configured" |}
  else
    match x_api_key with
    | Some key =>
        if bool_decide (key = "") || bool_decide (x_api_key ≠ admin_key)
        then inl {| status_code := 401; detail := "Invalid admin API key" |}
        else inr key
    | None => inl {| status_code := 401; detail := "Invalid admin API key" |}
    end.

End Dependencies.

(** ** image_gen_shell.py *)

Module ImageGenShell.

(** A string is the sequence of the bytes of its UTF-8 encoding.  The
    separator [=] is one byte, and that byte occurs in the encoding of no
    other character, so that looking for it and cutting at it byte-wise is
    what Python does character-wise. *)

(** [t.split("=", 1)] on a string that contains the separator: what is
    before the first [=] and what is after it. *)
Fixpoint split_once (t : string) : string * string :=
  match t with
  | EmptyString => (EmptyString, EmptyString)
  | String c rest =>
      if bool_decide (String c EmptyString = "=") then (EmptyString, rest)
      else let '(k, v) := split_once rest in (String c k, v)
  end.

(** The body of the loop of [parse_kv].  [str_strip] and [str_lower] are
    the methods [strip] and [lower] of Python's [str], which act on all of
    Unicode and belong to the language: they are taken as they are. *)
Definition parse_token (str_strip str_lower : string → string)
    (out : gmap string string) (t : string) : gmap string string :=
  if contains "=" t
  then let '(k, v) := split_once t in <[str_lower (str_strip k) := v]> out
  else out.

Definition parse_kv (str_strip str_lower : string → string)
    (tokens : list string) : gmap string string :=
  foldl (parse_token str_strip str_lower) ∅ tokens.

(** What [str.strip()] does to a string of ASCII characters, for the
    examples: the characters it removes there, and their removal at both
    ends. *)
Definition ascii_is_space (c : Ascii.ascii) : bool :=
  let n := Ascii.nat_of_ascii c in
  ((9 <=? n) && (n <=? 13)) || ((28 <=? n) && (n <=? 32)).

Fixpoint ascii_lstrip (s : string) : string :=
  match s with
  | EmptyString => EmptyString
  | String c rest => if ascii_is_space c then ascii_lstrip rest else s
  end.

Fixpoint ascii_rstrip (s : string) : string :=
  match s with
  | EmptyString => EmptyString
  | String c rest =>
      match ascii_rstrip rest with
      | EmptyString =>
          if ascii_is_space c then EmptyString else String c EmptyString
      | stripped => String c stripped
      end
  end.

Definition ascii_strip (s : string) : string := ascii_rstrip (ascii_lstrip s).

End ImageGenShell.

(** ** Vocabulary of the further properties *)

(** Nothing raises on [h]. *)
Definition never_raises (h : Host) : Prop :=
  (∀ t, transformer_from_pretrained_raises h t = None) ∧
  (∀ p, pipeline_from_pretrained_raises h p = None) ∧
  (∀ p, enable_model_cpu_offload_raises h p = None) ∧
  (∀ p, enable_vae_tiling_raises h p = None) ∧
  (∀ p, enable_vae_slicing_raises h p = None) ∧
  (∀ p d, to_raises h p d = None) ∧
  (∀ p, call_raises h p = None).

(** The quantized transformer a loader asks for. *)
Definition transformer_for (h : Host) (identifier : string)
    (token : option string) : Transformer :=
  {| tr_model_id := identifier;
     tr_quantization_config := get_bnb_4bit_config h;
     tr_subfolder := "transformer";
     tr_token := resolve_hf_token h token;
     tr_torch_dtype := dtype_for (get_device h);
     tr_use_safetensors := true |}.

(** The transformer a loader of category [c] hands to the pipeline: the
    upscaler loader asks for one only when the lower-cased identifier
    contains [sd3]. *)
Definition wanted_transformer (h : Host) (c : Category) (identifier : string)
    (token : option string) : option Transformer :=
  match c with
  | Upscaler =>
      if contains "sd3" (lower identifier)
      then Some (transformer_for h identifier token) else None
  | _ => Some (transformer_for h identifier token)
  end.

(** The pipeline as a loader asks the library for it. *)
Definition requested (h : Host) (c : Category) (identifier : string)
    (token : option string) : Pipeline :=
  pretrained c identifier (get_device h) (resolve_hf_token h token)
    (wanted_transformer h c identifier token).

(** What the host answers to each library call of the [try] block of a
    loader, in the order the block makes them, each on the arguments and on
    the object that the calls before it have left: the transformer (when
    one is wanted), the pipeline, then the configuration and the placement
    of the pipeline. *)
Definition try_block_calls (h : Host) (c : Category) (identifier : string)
    (token : option string) : list (option Exn) :=
  let p := requested h c identifier token in
  match wanted_transformer h c identifier token with
  | Some transformer => [transformer_from_pretrained_raises h transformer]
  | None => []
  end ++
  [pipeline_from_pretrained_raises h p] ++
  match c with
  | Upscaler =>
      [enable_vae_tiling_raises h p;
       enable_vae_slicing_raises h (with_vae_tiling p);
       to_raises h (with_vae_slicing (with_vae_tiling p)) (get_device h)]
  | _ =>
      if is_use_cpu_offload_enabled h
      then [enable_model_cpu_offload_raises h p;
            to_raises h (with_cpu_offload p) Cpu]
      else [to_raises h p (get_device h)]
  end.

(** The exception of the first call that raises, if one does. *)
Definition first_raised (calls : list (option Exn)) : option Exn :=
  head (omap id calls).

(** The construction of the pipeline fails with [cause]: a library call of
    the [try] block raises [cause], the calls before it having returned. *)
Definition construction_fails (h : Host) (c : Category) (identifier : string)
    (token : option string) (cause : Exn) : Prop :=
  first_raised (try_block_calls h c identifier token) = Some cause.

(** The pipeline a loader of category [c] leaves in the heap when it
    returns from a miss. *)
Definition built (h : Host) (c : Category) (identifier : string)
    (token : option string) : Pipeline :=
  let device := get_device h in
  let resolved := resolve_hf_token h token in
  let transformer := transformer_for h identifier token in
  match c with
  | Upscaler =>
      with_device device
        (with_vae_slicing
           (with_vae_tiling
              (pretrained Upscaler identifier device resolved
                 (if contains "sd3" (lower identifier)
                  then Some transformer else None))))
  | _ =>
      if is_use_cpu_offload_enabled h
      then with_device Cpu
             (with_cpu_offload
                (pretrained c identifier device resolved (Some transformer)))
      else with_device device
             (pretrained c identifier device resolved (Some transformer))
  end.

(** No two slots hold the same object. *)
Definition slots_distinct (st : State) : Prop :=
  ∀ c c' a, instance c st = Some a → instance c' st = Some a → c = c'.

(** * Properties *)

(** ** Unfolding the computations *)

Ltac unfold_M :=
  unfold mbind, M_bind, mret, M_ret, get_state, assign, raise, try_except,
    library_call in *.

Lemma lookup_fresh (l : list Pipeline) (p : Pipeline) :
  (l ++ [p]) !! length l = Some p.
Proof. by apply list_lookup_middle. Qed.

Lemma insert_fresh (l : list Pipeline) (p q : Pipeline) :
  <[length l := q]> (l ++ [p]) = l ++ [q].
Proof. rewrite insert_app_r_alt by lia. by rewrite Nat.sub_diag. Qed.

(** A method called on the object that was allocated last. *)
Lemma method_fresh st a raises effect l p :
  heap st = l ++ [p] →
  a = length l →
  method a raises effect st =
    match raises p with
    | Some e => (st, inl e)
    | None => (set_heap (l ++ [effect p]) st, inr tt)
    end.
Proof.
  intros Hheap ->. unfold method.
  rewrite Hheap, lookup_fresh, insert_fresh. done.
Qed.

Lemma cache_hit_Some model loaded identifier a :
  cache_hit model loaded identifier = Some a ↔
  model = Some a ∧ loaded = Some identifier.
Proof.
  unfold cache_hit. destruct model as [m|].
  - case_bool_decide as Hl; split.
    + intros [= ->]. by split.
    + by intros [[= ->] _].
    + intros [=].
    + intros [_ Hl']. by destruct Hl.
  - split; [intros [=] | intros [[=] _]].
Qed.

Lemma cache_hit_None model loaded identifier :
  cache_hit model loaded identifier = None ↔
  model = None ∨ loaded ≠ Some identifier.
Proof.
  unfold cache_hit. destruct model as [m|].
  - case_bool_decide as Hl; split.
    + intros [=].
    + intros [[=] | Hl']. by destruct Hl'.
    + intros _. by right.
    + done.
  - split; [by left | done].
Qed.

(** ** The outcome of an acquire *)

Ltac others :=
  let c' := fresh "c'" in
  let Hc' := fresh "Hc'" in
  intros c' Hc'; destruct c'; try congruence; simpl; split; reflexivity.

Ltac raised :=
  eapply outcome_failed;
  [ assumption
  | unfold library_raises; eauto 10
  | reflexivity | reflexivity | others | simpl; rewrite ?length_app; lia ].

Ltac loaded Hr :=
  eapply outcome_loaded;
  [ assumption
  | simpl; reflexivity
  | unfold retention; rewrite Hr; reflexivity
  | reflexivity | others | reflexivity | reflexivity
  | simpl; try reflexivity | simpl; try reflexivity ].

(** Case analysis on the next library call of the goal. *)
Ltac oracle :=
  match goal with
  | |- context [match ?o with Some _ => _ | None => _ end] =>
      lazymatch type of o with
      | option Exn =>
          let e := fresh "e" in
          let He := fresh "He" in
          destruct o as [e|] eqn:He; simpl; [ raised | ]
      end
  end.

Ltac on_fresh_object :=
  erewrite method_fresh; [ | simpl; reflexivity | reflexivity ].

Lemma get_or_load_model_outcome h identifier token st :
  acquire_outcome h TextToImage identifier st
    (get_or_load_model h identifier token st).
Proof.
  unfold get_or_load_model. unfold_M.
  destruct (cache_hit (_model st) (_model_id st) identifier) as [a|] eqn:Hhit.
  { apply cache_hit_Some in Hhit as [Hm Hi]. by apply outcome_hit. }
  change (miss TextToImage identifier st) in Hhit.
  unfold create_sd3_transformer_2d_model_4bit, from_pretrained,
    enable_model_cpu_offload, to.
  unfold_M.
  destruct (is_switch _ _ _); simpl.
  all: do 2 oracle.
  all: destruct (is_use_cpu_offload_enabled h) eqn:Hoff.
  all: repeat (on_fresh_object; oracle).
  all: destruct (is_model_retentation_reload h) eqn:Hr; simpl.
  all: loaded Hr.
  all: by rewrite Hoff.
Qed.

Lemma get_or_load_image_editing_model_outcome h identifier token st :
  acquire_outcome h ImageEditing identifier st
    (get_or_load_image_editing_model h identifier token st).
Proof.
  unfold get_or_load_image_editing_model. unfold_M.
  destruct (cache_hit (_image_editing_model st) (_image_editing_model_id st)
              identifier) as [a|] eqn:Hhit.
  { apply cache_hit_Some in Hhit as [Hm Hi]. by apply outcome_hit. }
  change (miss ImageEditing identifier st) in Hhit.
  unfold create_sd3_transformer_2d_model_4bit, from_pretrained,
    enable_model_cpu_offload, to.
  unfold_M.
  destruct (is_switch _ _ _); simpl.
  all: do 2 oracle.
  all: destruct (is_use_cpu_offload_enabled h) eqn:Hoff.
  all: repeat (on_fresh_object; oracle).
  all: destruct (is_model_retentation_reload h) eqn:Hr; simpl.
  all: loaded Hr.
  all: by rewrite Hoff.
Qed.

Lemma get_or_load_upscaler_model_outcome h identifier token st :
  acquire_outcome h Upscaler identifier st
    (get_or_load_upscaler_model h identifier token st).
Proof.
  unfold get_or_load_upscaler_model. unfold_M.
  destruct (cache_hit (_upscaler_model st) (_upscaler_model_id st)
              identifier) as [a|] eqn:Hhit.
  { apply cache_hit_Some in Hhit as [Hm Hi]. by apply outcome_hit. }
  change (miss Upscaler identifier st) in Hhit.
  unfold create_sd3_transformer_2d_model_4bit, from_pretrained,
    enable_vae_tiling, enable_vae_slicing, to.
  unfold_M.
  destruct (is_switch _ _ _); simpl.
  all: destruct (contains "sd3" (lower identifier)); simpl.
  all: repeat oracle.
  all: repeat (on_fresh_object; oracle).
  all: destruct (is_model_retentation_reload h) eqn:Hr; simpl.
  all: loaded Hr.
Qed.

Lemma acquire_has_outcome h c identifier token st :
  acquire_outcome h c identifier st (acquire h c identifier token st).
Proof.
  destruct c; simpl.
  - apply get_or_load_model_outcome.
  - apply get_or_load_image_editing_model_outcome.
  - apply get_or_load_upscaler_model_outcome.
Qed.

Lemma acquire_hit h c identifier token st a :
  instance c st = Some a →
  loaded_identifier c st = Some identifier →
  acquire h c identifier token st = (st, inr a).
Proof.
  intros Hm Hi.
  assert (cache_hit (instance c st) (loaded_identifier c st) identifier
          = Some a) as Hhit by by apply cache_hit_Some.
  destruct c; simpl in *;
    unfold get_or_load_model, get_or_load_image_editing_model,
      get_or_load_upscaler_model; unfold_M; by rewrite Hhit.
Qed.

Lemma hit_not_miss c identifier st a :
  instance c st = Some a →
  loaded_identifier c st = Some identifier →
  ¬ miss c identifier st.
Proof.
  unfold miss. intros Hm Hi Hmiss.
  apply cache_hit_None in Hmiss as [Hn | Hn]; congruence.
Qed.

(** What an acquire that returns has done. *)
Lemma acquire_returns_inv h c identifier token st st' a :
  acquire h c identifier token st = (st', inr a) →
  (st' = st ∧ instance c st = Some a ∧
   loaded_identifier c st = Some identifier) ∨
  (miss c identifier st ∧ a = length (heap st) ∧
   ∃ p, heap st' = heap st ++ [p] ∧
        instance c st' =
          match retention h with
          | Keep => Some (length (heap st))
          | Reload => None
          end ∧
        loaded_identifier c st' = Some identifier ∧
        others_unchanged c st st' ∧
        pipe_class p = c ∧
        pipe_model_id p = identifier ∧
        pipe_cpu_offload p = offload_applies h c ∧
        pipe_device p =
          Some (if offload_applies h c then Cpu else get_device h)).
Proof.
  intros Hacq. pose proof (acquire_has_outcome h c identifier token st) as Ho.
  rewrite Hacq in Ho. inversion Ho; subst.
  - left. done.
  - right. split; [done|]. split; [done|]. exists p. done.
Qed.

(** What an acquire that raises has done. *)
Lemma acquire_raises_inv h c identifier token st st' err :
  acquire h c identifier token st = (st', inl err) →
  miss c identifier st ∧
  (∃ cause, library_raises h cause ∧
     err = RuntimeError (load_error_message c identifier) (Some cause)) ∧
  instance c st' = None ∧
  loaded_identifier c st' = None ∧
  others_unchanged c st st' ∧
  length (heap st) ≤ length (heap st').
Proof.
  intros Hacq. pose proof (acquire_has_outcome h c identifier token st) as Ho.
  rewrite Hacq in Ho. inversion Ho; subst.
  split; [done|]. split; [by exists cause|]. done.
Qed.

(** ** Unloading *)

(** [unload_model] returns, leaves the heap alone, and leaves every slot
    either as it was or cleared of both its fields. *)
Lemma unload_model_outcome model st :
  ∃ st', unload_model model st = (st', inr tt) ∧
    heap st' = heap st ∧
    ∀ c, (instance c st' = instance c st ∧
          loaded_identifier c st' = loaded_identifier c st) ∨
         (instance c st' = None ∧ loaded_identifier c st' = None).
Proof.
  unfold unload_model. unfold_M.
  repeat case_bool_decide; eexists; (split; [reflexivity|]);
    (split; [reflexivity|]); intros c; destruct c; simpl; auto.
Qed.

Lemma unload_models_outcome st :
  ∃ st', unload_models st = (st', inr tt) ∧
    heap st' = heap st ∧
    ∀ c, instance c st' = None ∧
         (loaded_identifier c st' = loaded_identifier c st ∨
          loaded_identifier c st' = None).
Proof.
  unfold unload_models. unfold_M.
  destruct st as [m mi e ei u ui hp]; simpl.
  destruct m, e, u; simpl; eexists; (split; [reflexivity|]);
    (split; [reflexivity|]); intros c; destruct c; simpl; auto.
Qed.

Lemma release_outcome h borrowed st :
  ∃ st', release h borrowed st = (st', inr tt) ∧
    heap st' = heap st ∧
    ∀ c, (instance c st' = instance c st ∧
          loaded_identifier c st' = loaded_identifier c st) ∨
         (instance c st' = None ∧ loaded_identifier c st' = None).
Proof.
  unfold release. destruct (is_model_retentation_reload h).
  - apply unload_model_outcome.
  - exists st. unfold_M. auto.
Qed.

(** A method call changes one cell of the heap and nothing else. *)
Lemma method_outcome a raises effect st :
  ∃ hp, (method a raises effect st).1 = set_heap hp st ∧
        length hp = length (heap st).
Proof.
  unfold method. destruct (heap st !! a) as [p|].
  - destruct (raises p); simpl.
    + exists (heap st). by destruct st.
    + eexists. split; [reflexivity|]. by rewrite length_insert.
  - exists (heap st). by destruct st.
Qed.

(** ** Invariants of the reachable states *)

Lemma preserves_ret {A : Type} (P : State → Prop) (a : A) :
  preserves P (mret a).
Proof. by intros st Hst. Qed.

Lemma preserves_raise {A : Type} (P : State → Prop) (e : Exn) :
  preserves P (raise e : M A).
Proof. by intros st Hst. Qed.

Lemma preserves_bind {A B : Type} (P : State → Prop) (m : M A) (k : A → M B) :
  preserves P m →
  (∀ a, preserves P (k a)) →
  preserves P (m ≫= k).
Proof.
  intros Hm Hk st Hst. specialize (Hm st Hst). unfold_M.
  destruct (m st) as [st' [e|a]]; simpl in *; [done|]. by apply Hk.
Qed.

Lemma preserves_try_except {A : Type} (P : State → Prop) (m : M A)
    (handler : Exn → M A) :
  preserves P m →
  (∀ e, preserves P (handler e)) →
  preserves P (try_except m handler).
Proof.
  intros Hm Hh st Hst. specialize (Hm st Hst). unfold try_except.
  destruct (m st) as [st' [e|a]]; simpl in *; [by apply Hh|done].
Qed.

Section Invariants.

(** A property of the state that does not look inside the objects, and
    that the loaders and the unloaders keep, is kept by everything the
    service does. *)
Variable P : State → Prop.

Hypothesis P_heap : ∀ st hp,
  length hp = length (heap st) → P st → P (set_heap hp st).
Hypothesis P_acquire : ∀ h c identifier token,
  preserves P (acquire h c identifier token).
Hypothesis P_unload_model : ∀ model, preserves P (unload_model model).
Hypothesis P_unload_models : preserves P unload_models.

Lemma preserves_method a raises effect :
  preserves P (method a raises effect).
Proof.
  intros st Hst. destruct (method_outcome a raises effect st) as (hp & -> & Hl).
  by apply P_heap.
Qed.

Lemma preserves_release h borrowed : preserves P (release h borrowed).
Proof.
  unfold release. destruct (is_model_retentation_reload h).
  - apply P_unload_model.
  - apply preserves_ret.
Qed.

Lemma preserves_use h a : preserves P (call h a;; release h a).
Proof.
  apply preserves_bind; [apply preserves_method|].
  intros _. apply preserves_release.
Qed.

Lemma preserves_step op : ∀ st, P st → P (step st op).
Proof.
  destruct op; simpl.
  - apply P_acquire.
  - apply preserves_release.
  - apply P_unload_model.
  - apply P_unload_models.
  - apply preserves_bind; [apply (P_acquire h TextToImage)|].
    intros a. apply preserves_try_except;
      [apply preserves_use | intros e; apply preserves_raise].
  - apply preserves_bind; [apply (P_acquire h ImageEditing)|].
    intros a. apply preserves_try_except;
      [apply preserves_use | intros e; apply preserves_raise].
  - apply preserves_try_except; [|intros e; apply preserves_raise].
    apply preserves_bind; [apply (P_acquire h Upscaler)|].
    intros a. apply preserves_bind; [apply preserves_method|].
    intros _. apply preserves_use.
Qed.

Lemma preserves_run ops : ∀ st, P st → P (run ops st).
Proof.
  unfold run. induction ops as [|op ops IH]; intros st Hst; simpl; [done|].
  apply IH. by apply preserves_step.
Qed.

End Invariants.

Lemma well_formed_heap st hp :
  length hp = length (heap st) → well_formed st → well_formed (set_heap hp st).
Proof.
  intros Hl Hwf c a Ha. simpl. rewrite Hl. apply (Hwf c).
  by destruct c.
Qed.

Lemma well_formed_acquire h c identifier token :
  preserves well_formed (acquire h c identifier token).
Proof.
  intros st Hwf.
  destruct (acquire h c identifier token st) as [st' [err|a]] eqn:Hacq; simpl.
  - apply acquire_raises_inv in Hacq as (_ & _ & Hm & _ & Ho & Hl).
    intros c' a' Ha'. destruct (decide (c' = c)) as [->|Hne]; [congruence|].
    destruct (Ho c' Hne) as [Hsame _]. rewrite Hsame in Ha'.
    specialize (Hwf c' a' Ha'). lia.
  - apply acquire_returns_inv in Hacq
      as [(-> & _ & _) | (_ & -> & p & Hhp & Hm & _ & Ho & _)]; [done|].
    intros c' a' Ha'. rewrite Hhp, length_app. simpl.
    destruct (decide (c' = c)) as [->|Hne].
    + rewrite Hm in Ha'. destruct (retention h); [|done].
      injection Ha' as <-. lia.
    + destruct (Ho c' Hne) as [Hsame _]. rewrite Hsame in Ha'.
      specialize (Hwf c' a' Ha'). lia.
Qed.

Lemma well_formed_unload_model model : preserves well_formed (unload_model model).
Proof.
  intros st Hwf. destruct (unload_model_outcome model st) as (st' & -> & Hhp & Hc).
  simpl. intros c a Ha. rewrite Hhp.
  destruct (Hc c) as [[Hsame _] | [Hnone _]]; [|congruence].
  rewrite Hsame in Ha. by apply (Hwf c).
Qed.

Lemma well_formed_unload_models : preserves well_formed unload_models.
Proof.
  intros st Hwf. destruct (unload_models_outcome st) as (st' & -> & Hhp & Hc).
  simpl. intros c a Ha. destruct (Hc c) as [Hnone _]. congruence.
Qed.

Lemma reachable_well_formed st : reachable st → well_formed st.
Proof.
  intros [ops ->].
  apply (preserves_run well_formed well_formed_heap well_formed_acquire
           well_formed_unload_model well_formed_unload_models).
  intros c a Ha. by destruct c.
Qed.

Lemma instance_has_identifier_heap st hp :
  length hp = length (heap st) →
  instance_has_identifier st → instance_has_identifier (set_heap hp st).
Proof. intros _ Hinv c. specialize (Hinv c). by destruct c. Qed.

Lemma instance_has_identifier_acquire h c identifier token :
  preserves instance_has_identifier (acquire h c identifier token).
Proof.
  intros st Hinv.
  destruct (acquire h c identifier token st) as [st' [err|a]] eqn:Hacq; simpl.
  - apply acquire_raises_inv in Hacq as (_ & _ & Hm & _ & Ho & _).
    intros c' Hc'. destruct (decide (c' = c)) as [->|Hne].
    + rewrite Hm in Hc'. by destruct Hc'.
    + destruct (Ho c' Hne) as [Hsame ->]. rewrite Hsame in Hc'. by apply Hinv.
  - apply acquire_returns_inv in Hacq
      as [(-> & _ & _) | (_ & _ & p & _ & _ & Hi & Ho & _)]; [done|].
    intros c' Hc'. destruct (decide (c' = c)) as [->|Hne].
    + by rewrite Hi.
    + destruct (Ho c' Hne) as [Hsame ->]. rewrite Hsame in Hc'. by apply Hinv.
Qed.

Lemma instance_has_identifier_unload_model model :
  preserves instance_has_identifier (unload_model model).
Proof.
  intros st Hinv.
  destruct (unload_model_outcome model st) as (st' & -> & _ & Hc).
  simpl. intros c Hsome.
  destruct (Hc c) as [[Hsame ->] | [Hnone _]].
  - rewrite Hsame in Hsome. by apply Hinv.
  - rewrite Hnone in Hsome. by destruct Hsome.
Qed.

Lemma instance_has_identifier_unload_models :
  preserves instance_has_identifier unload_models.
Proof.
  intros st Hinv. destruct (unload_models_outcome st) as (st' & -> & _ & Hc).
  simpl. intros c Hsome. destruct (Hc c) as [Hnone _].
  rewrite Hnone in Hsome. by destruct Hsome.
Qed.

(** ** Token resolution *)

Lemma truthy_false (v : option string) :
  truthy v = false ↔ v = None ∨ v = Some "".
Proof.
  unfold truthy. destruct v as [s|]; [|by split; [left|]].
  case_bool_decide as Hs; simpl; split.
  - intros _. right. by rewrite Hs.
  - done.
  - intros [=].
  - intros [[=]|[= ->]]. by destruct Hs.
Qed.

Lemma truthy_true (v : option string) :
  truthy v = true ↔ ∃ s, v = Some s ∧ s ≠ "".
Proof.
  unfold truthy. destruct v as [s|].
  - case_bool_decide as Hs; simpl; split.
    + intros [=].
    + intros (s' & [= <-] & Hne). by destruct Hne.
    + intros _. by exists s.
    + done.
  - split; [intros [=] | intros (s & [=] & _)].
Qed.

(** The loop returns the value of the first variable that is set to a
    non-empty string, and [None] when there is no such variable. *)
Lemma first_env_token_cases (env : gmap string string) (env_vars : list string) :
  (∃ pre v post val,
      env_vars = pre ++ v :: post ∧
      Forall (λ u, env !! u = None ∨ env !! u = Some "") pre ∧
      env !! v = Some val ∧ val ≠ "" ∧
      first_env_token env env_vars = Some val) ∨
  (Forall (λ u, env !! u = None ∨ env !! u = Some "") env_vars ∧
   first_env_token env env_vars = None).
Proof.
  induction env_vars as [|x rest IH]; simpl.
  - right. by split.
  - destruct (truthy (env !! x)) eqn:Ht.
    + left. apply truthy_true in Ht as (val & Hval & Hne).
      exists [], x, rest, val. by repeat split.
    + apply truthy_false in Ht.
      destruct IH as [(pre & v & post & val & -> & Hpre & Hv & Hne & Hres)
                     | [Hall Hres]].
      * left. exists (x :: pre), v, post, val.
        repeat split; try done. by constructor.
      * right. split; [by constructor | done].
Qed.

(** ** Slots that cache nothing *)

(** Whatever identifier a slot that caches nothing records, an acquire on
    it does the same and ends in the same state. *)
Lemma identifier_of_empty_slot_is_dead h c X token v st :
  caches_nothing c st →
  acquire h c X token (set_loaded_identifier c v st) = acquire h c X token st.
Proof.
  unfold caches_nothing. intros Hempty.
  destruct c, st as [m mi e ei u ui hp]; simpl in *; subst.
  all: unfold get_or_load_model, get_or_load_image_editing_model,
         get_or_load_upscaler_model, create_sd3_transformer_2d_model_4bit,
         from_pretrained, enable_model_cpu_offload, enable_vae_tiling,
         enable_vae_slicing, to; unfold_M; simpl.
  all: try destruct (contains "sd3" (lower X)); simpl.
  all: repeat
         match goal with
         | |- context [match ?o with Some _ => _ | None => _ end] =>
             lazymatch type of o with
             | option Exn => destruct o; simpl; try reflexivity
             end
         end.
  all: destruct (is_use_cpu_offload_enabled h); simpl.
  all: repeat
         (do 2 (erewrite method_fresh; [ | simpl; reflexivity | reflexivity ]);
          match goal with
          | |- context [match ?o with Some _ => _ | None => _ end] =>
              lazymatch type of o with
              | option Exn => destruct o; simpl; try reflexivity
              end
          end).
  all: destruct (is_model_retentation_reload h); reflexivity.
Qed.

(** ** Failure of the construction *)

(** Case analysis on the next library call of the goal, whatever follows. *)
Ltac call_outcome :=
  match goal with
  | |- context [match ?o with Some _ => _ | None => _ end] =>
      lazymatch o with
      | head _ => fail
      | _ => idtac
      end;
      lazymatch type of o with
      | option Exn => destruct o; simpl
      end
  end.

(** On a miss, a loader raises exactly when one of the library calls of its
    [try] block does, and then with that exception as the cause of its
    error; it returns when none does. *)
Lemma acquire_follows_calls h c identifier token st :
  miss c identifier st →
  match first_raised (try_block_calls h c identifier token) with
  | Some cause =>
      ∃ st', acquire h c identifier token st
             = (st', inl (RuntimeError (load_error_message c identifier)
                            (Some cause)))
  | None => ∃ st' a, acquire h c identifier token st = (st', inr a)
  end.
Proof.
  unfold miss, first_raised, try_block_calls, requested, wanted_transformer,
    transformer_for.
  intros Hmiss.
  destruct c; simpl in Hmiss;
    unfold acquire, get_or_load_model, get_or_load_image_editing_model,
      get_or_load_upscaler_model, create_sd3_transformer_2d_model_4bit,
      from_pretrained, enable_model_cpu_offload, enable_vae_tiling,
      enable_vae_slicing, to;
    unfold_M; rewrite Hmiss.
  all: destruct (is_switch _ _ _); simpl.
  all: try destruct (contains "sd3" (lower identifier)); simpl.
  all: try destruct (is_use_cpu_offload_enabled h); simpl.
  all: repeat first
         [ call_outcome; [by eexists|]
         | erewrite method_fresh; [ | simpl; reflexivity | reflexivity ] ].
  all: destruct (is_model_retentation_reload h); simpl; by do 2 eexists.
Qed.

(** * The claims *)

(** What a raising acquire leaves behind. *)
Lemma raising_acquire_resets_slot h c identifier token st st' err :
  acquire h c identifier token st = (st', inl err) →
  Empty c st' ∧
  others_unchanged c st st' ∧
  (∀ identifier', miss c identifier' st') ∧
  (∀ h' identifier' token' st'' a,
     acquire h' c identifier' token' st' = (st'', inr a) →
     a = length (heap st') ∧
     construction_count st'' = construction_count st' + 1).
Proof.
  intros Hacq.
  apply acquire_raises_inv in Hacq as (_ & _ & Hm & Hi & Ho & _).
  split; [by split|]. split; [done|]. split.
  - intros identifier'. unfold miss. by rewrite Hm.
  - intros h' identifier' token' st'' a Hnext.
    apply acquire_returns_inv in Hnext
      as [(_ & Hm' & _) | (_ & Ha & p & Hhp & _)]; [congruence|].
    split; [done|].
    unfold construction_count. rewrite Hhp, length_app. simpl. lia.
Qed.

(** C1.  For every category and identifier: if, on a miss, the
    construction of the pipeline fails (a library call of the loader's
    [try] block raises [cause], the calls before it having returned), then
    the acquire raises the loader's [RuntimeError], whose message quotes
    the identifier and whose cause is [cause]; the slot is reset to empty
    (instance and loaded identifier both cleared) and the other slots are
    untouched; so that any later acquire on that slot, for the same or
    another identifier, is a miss, and one that returns has constructed a
    new instance. *)
Theorem acquire_failure_resets_slot h c identifier token st cause :
  miss c identifier st →
  construction_fails h c identifier token cause →
  ∃ st',
    acquire h c identifier token st
    = (st', inl (RuntimeError (load_error_message c identifier)
                   (Some cause))) ∧
    Empty c st' ∧
    others_unchanged c st st' ∧
    (∀ identifier', miss c identifier' st') ∧
    (∀ h' identifier' token' st'' a,
       acquire h' c identifier' token' st' = (st'', inr a) →
       a = length (heap st') ∧
       construction_count st'' = construction_count st' + 1).
Proof.
  intros Hmiss Hfails.
  pose proof (acquire_follows_calls h c identifier token st Hmiss) as Hcalls.
  unfold construction_fails in Hfails. rewrite Hfails in Hcalls.
  destruct Hcalls as [st' Hacq]. exists st'. split; [done|].
  by apply (raising_acquire_resets_slot h c identifier token st st' _ Hacq).
Qed.

Lemma acquire_failure_resets_slot_witness :
  ∃ st',
    acquire offline_host TextToImage "model-A" None initial_state
    = (st', inl (RuntimeError (load_error_message TextToImage "model-A")
                   (Some (LibraryError "offline")))) ∧
    Empty TextToImage st'.
Proof.
  destruct (acquire_failure_resets_slot offline_host TextToImage "model-A"
              None initial_state (LibraryError "offline"))
    as (st' & Hacq & Hempty & _).
  - reflexivity.
  - vm_compute. reflexivity.
  - by exists st'.
Defined.

(** C2, as the code has it.  In every state the service can reach, a slot
    that caches an instance records its identifier.  (The converse fails
    after an acquire under the reload policy.) *)
Theorem cached_instance_has_identifier ops c :
  is_Some (instance c (run ops initial_state)) →
  is_Some (loaded_identifier c (run ops initial_state)).
Proof.
  revert c. change (instance_has_identifier (run ops initial_state)).
  apply (preserves_run instance_has_identifier instance_has_identifier_heap
           instance_has_identifier_acquire instance_has_identifier_unload_model
           instance_has_identifier_unload_models).
  intros c [a Ha]. by destruct c.
Qed.

Lemma cached_instance_has_identifier_witness :
  is_Some (loaded_identifier TextToImage
             (run [OpAcquire keep_host TextToImage "model-A" None]
                initial_state)).
Proof.
  apply (cached_instance_has_identifier
           [OpAcquire keep_host TextToImage "model-A" None] TextToImage).
  exists 0. vm_compute. reflexivity.
Defined.

(** C2, as stated, fails: an acquire under the reload policy returns and
    leaves its slot with a loaded identifier and no cached instance. *)
Lemma reload_leaves_identifier_without_instance :
  (acquire reload_host TextToImage "model-A" None initial_state).2 = inr 0 ∧
  instance TextToImage
    (acquire reload_host TextToImage "model-A" None initial_state).1 = None ∧
  loaded_identifier TextToImage
    (acquire reload_host TextToImage "model-A" None initial_state).1
  = Some "model-A".
Proof. vm_compute. repeat split; reflexivity. Qed.

(** C3.  Under the keep policy, an acquire that returns is followed, for the
    same category and identifier, by an acquire that returns the same
    instance and leaves the whole state as it is: the heap is unchanged, so
    nothing was constructed, placed or configured. *)
Theorem keep_acquire_twice_same_instance h1 h2 c X token1 token2 st st1 a :
  retention h1 = Keep →
  acquire h1 c X token1 st = (st1, inr a) →
  acquire h2 c X token2 st1 = (st1, inr a) ∧
  construction_count (acquire h2 c X token2 st1).1 = construction_count st1.
Proof.
  intros Hkeep Hacq.
  assert (acquire h2 c X token2 st1 = (st1, inr a)) as Hsecond.
  { apply acquire_returns_inv in Hacq
      as [(-> & Hm & Hi) | (_ & -> & p & _ & Hm & Hi & _)].
    - by apply acquire_hit.
    - rewrite Hkeep in Hm. by apply acquire_hit. }
  by rewrite Hsecond.
Qed.

Lemma keep_acquire_twice_same_instance_witness :
  acquire keep_host TextToImage "model-A" None
    (acquire keep_host TextToImage "model-A" None initial_state).1
  = ((acquire keep_host TextToImage "model-A" None initial_state).1, inr 0).
Proof.
  apply (keep_acquire_twice_same_instance keep_host keep_host TextToImage
           "model-A" None None initial_state).
  - vm_compute. reflexivity.
  - vm_compute. reflexivity.
Defined.

(** C4, as the code has it.  In a reachable state, an acquire of [X] that
    returns, followed on the same slot by an acquire of [Y ≠ X] that
    returns, leaves the slot with loaded identifier [Y]; the instance it
    returns is a newly built pipeline for [Y] (an object that did not
    exist before the second acquire), distinct from the one returned for
    [X]; under the keep policy the slot caches exactly that
    instance, under the reload policy it caches none; in both cases the
    slot no longer holds the instance of [X].  A slot is a single optional
    reference, so it never holds more than one instance. *)
Theorem switch_evicts_previous h1 h2 c X Y token1 token2 st st1 st2 aX aY :
  reachable st →
  X ≠ Y →
  acquire h1 c X token1 st = (st1, inr aX) →
  acquire h2 c Y token2 st1 = (st2, inr aY) →
  loaded_identifier c st2 = Some Y ∧
  instance c st2 =
    match retention h2 with
    | Keep => Some aY
    | Reload => None
    end ∧
  (∃ p, heap st2 !! aY = Some p ∧ pipe_class p = c ∧ pipe_model_id p = Y) ∧
  aY ≠ aX ∧
  instance c st2 ≠ Some aX ∧
  heap st1 !! aY = None.
Proof.
  intros Hreach Hne HX HY.
  apply reachable_well_formed in Hreach.
  assert (loaded_identifier c st1 = Some X ∧ aX < length (heap st1))
    as [HidX HltX].
  { apply acquire_returns_inv in HX
      as [(-> & Hm & Hi) | (_ & -> & p & Hhp & _ & Hi & _)].
    - split; [done|]. by apply (Hreach c).
    - split; [done|]. rewrite Hhp, length_app. simpl. lia. }
  apply acquire_returns_inv in HY
    as [(_ & _ & Hi) | (_ & -> & p & Hhp & Hm & Hi & _ & Hc & Hp & _)].
  { congruence. }
  assert (length (heap st1) ≠ aX) as Hfresh by lia.
  split; [done|]. split; [done|]. split; [|split; [done|split]].
  - exists p. rewrite Hhp. split; [apply lookup_fresh | done].
  - rewrite Hm. destruct (retention h2); congruence.
  - by apply lookup_ge_None_2.
Qed.

Lemma switch_evicts_previous_witness :
  loaded_identifier TextToImage
    (acquire keep_host TextToImage "model-B" None
       (acquire keep_host TextToImage "model-A" None initial_state).1).1
  = Some "model-B".
Proof.
  apply (switch_evicts_previous keep_host keep_host TextToImage "model-A"
           "model-B" None None initial_state
           (acquire keep_host TextToImage "model-A" None initial_state).1
           (acquire keep_host TextToImage "model-B" None
              (acquire keep_host TextToImage "model-A" None initial_state).1).1
           0 1).
  - by exists [].
  - intros [=].
  - vm_compute. reflexivity.
  - vm_compute. reflexivity.
Defined.

(** C4, as stated, fails: when the second acquire runs under the reload
    policy it returns the instance of [Y] and the slot holds none. *)
Lemma switch_under_reload_caches_nothing :
  (acquire reload_host TextToImage "model-B" None
     (acquire keep_host TextToImage "model-A" None initial_state).1).2
  = inr 1 ∧
  instance TextToImage
    (acquire reload_host TextToImage "model-B" None
       (acquire keep_host TextToImage "model-A" None initial_state).1).1
  = None.
Proof. vm_compute. split; reflexivity. Qed.

(** A release does not touch a slot that does not cache the object
    released. *)
Lemma release_keeps_slot h borrowed c st :
  instance c st ≠ Some borrowed →
  instance c (release h borrowed st).1 = instance c st ∧
  loaded_identifier c (release h borrowed st).1 = loaded_identifier c st.
Proof.
  intros Hne. unfold release, unload_model. unfold_M.
  destruct (is_model_retentation_reload h); [|done].
  destruct c; simpl in Hne; repeat case_bool_decide; simpl; try done;
    by destruct Hne.
Qed.

(** C5, as the code has it.  Under the reload policy, from a slot that
    caches no instance: once an acquire has returned and its instance has
    been released, the slot caches no instance and its loaded identifier
    still records [X]; after a second acquire of the same identifier and
    its release the slot is in that same condition, two pipelines have
    been constructed, and the two acquires returned distinct instances. *)
Theorem reload_cycle_constructs_twice
    h1 h2 h3 h4 c X token1 token3 st st1 a1 st3 a3 :
  retention h1 = Reload →
  retention h3 = Reload →
  instance c st = None →
  acquire h1 c X token1 st = (st1, inr a1) →
  acquire h3 c X token3 (release h2 a1 st1).1 = (st3, inr a3) →
  (release h2 a1 st1).2 = inr tt ∧
  instance c (release h2 a1 st1).1 = None ∧
  loaded_identifier c (release h2 a1 st1).1 = Some X ∧
  instance c (release h4 a3 st3).1 = None ∧
  loaded_identifier c (release h4 a3 st3).1 = Some X ∧
  construction_count (release h4 a3 st3).1 = construction_count st + 2 ∧
  a1 ≠ a3.
Proof.
  unfold construction_count. intros Hr1 Hr3 Hempty Hacq1 Hacq3.
  apply acquire_returns_inv in Hacq1
    as [(_ & Hm & _) | (_ & -> & p1 & Hhp1 & Hm1 & Hi1 & _)]; [congruence|].
  rewrite Hr1 in Hm1.
  destruct (release_keeps_slot h2 (length (heap st)) c st1) as [Hm2 Hi2];
    [congruence|].
  destruct (release_outcome h2 (length (heap st)) st1)
    as (st2 & Hrel2 & Hhp2 & _).
  rewrite Hrel2 in *. simpl in *.
  rewrite Hm1 in Hm2. rewrite Hi1 in Hi2.
  apply acquire_returns_inv in Hacq3
    as [(_ & Hm & _) | (_ & -> & p3 & Hhp3 & Hm3 & Hi3 & _)]; [congruence|].
  rewrite Hr3 in Hm3.
  destruct (release_keeps_slot h4 (length (heap st2)) c st3) as [Hm4 Hi4];
    [congruence|].
  destruct (release_outcome h4 (length (heap st2)) st3)
    as (st4 & Hrel4 & Hhp4 & _).
  rewrite Hrel4 in *. simpl in *.
  rewrite Hm3 in Hm4. rewrite Hi3 in Hi4.
  split; [done|]. split; [done|]. split; [done|]. split; [done|].
  split; [done|]. split.
  - rewrite Hhp4, Hhp3, Hhp2, Hhp1, !length_app. simpl. lia.
  - rewrite Hhp2, Hhp1, length_app. simpl. lia.
Qed.

Lemma reload_cycle_constructs_twice_witness :
  construction_count
    (release reload_host 1
       (acquire reload_host TextToImage "model-A" None
          (release reload_host 0
             (acquire reload_host TextToImage "model-A" None
                initial_state).1).1).1).1
  = construction_count initial_state + 2.
Proof.
  apply (reload_cycle_constructs_twice reload_host reload_host reload_host
           reload_host TextToImage "model-A" None None initial_state
           (acquire reload_host TextToImage "model-A" None initial_state).1 0
           (acquire reload_host TextToImage "model-A" None
              (release reload_host 0
                 (acquire reload_host TextToImage "model-A" None
                    initial_state).1).1).1
           1).
  - vm_compute. reflexivity.
  - vm_compute. reflexivity.
  - reflexivity.
  - vm_compute. reflexivity.
  - vm_compute. reflexivity.
Defined.

(** C5, as stated, fails: after an acquire under the reload policy and the
    release of its instance the slot is not empty, for its loaded
    identifier is still set. *)
Lemma reload_cycle_keeps_identifier :
  (release reload_host 0
     (acquire reload_host TextToImage "model-A" None initial_state).1).2
  = inr tt ∧
  loaded_identifier TextToImage
    (release reload_host 0
       (acquire reload_host TextToImage "model-A" None initial_state).1).1
  = Some "model-A".
Proof. vm_compute. split; reflexivity. Qed.

(** Two full use-cycles of the text-to-image caller under the reload
    policy: both return, the slot ends with no cached instance and two
    pipelines were built. *)
Example two_reload_use_cycles :
  (generate_text_to_image reload_host "model-A"
     (generate_text_to_image reload_host "model-A" initial_state).1).2
  = inr tt ∧
  instance TextToImage
    (generate_text_to_image reload_host "model-A"
       (generate_text_to_image reload_host "model-A" initial_state).1).1
  = None ∧
  construction_count
    (generate_text_to_image reload_host "model-A"
       (generate_text_to_image reload_host "model-A" initial_state).1).1
  = 2.
Proof. vm_compute. repeat split; reflexivity. Qed.

(** C6, as the code has it.  On a cache miss that returns, the pipeline
    returned is in the heap; for the text-to-image and the image-editing
    loaders it has CPU offload configured and was last placed on the CPU
    when the offload setting is enabled, and has no offload configured and
    was placed on the selected device when it is disabled; the upscaler
    loader never looks at the setting: its pipeline has no offload
    configured and is placed on the selected device. *)
Theorem placement_on_miss h c X token st st' a :
  miss c X st →
  acquire h c X token st = (st', inr a) →
  ∃ p, heap st' !! a = Some p ∧
    match c with
    | Upscaler =>
        pipe_cpu_offload p = false ∧ pipe_device p = Some (get_device h)
    | _ =>
        if is_use_cpu_offload_enabled h
        then pipe_cpu_offload p = true ∧ pipe_device p = Some Cpu
        else pipe_cpu_offload p = false ∧ pipe_device p = Some (get_device h)
    end.
Proof.
  intros Hmiss Hacq.
  apply acquire_returns_inv in Hacq
    as [(_ & Hm & Hi) | (_ & -> & p & Hhp & _ & _ & _ & _ & _ & Hoff & Hdev)].
  { by destruct (hit_not_miss c X st a). }
  exists p. rewrite Hhp. split; [apply lookup_fresh|].
  destruct c; simpl in *; try done;
    destruct (is_use_cpu_offload_enabled h); done.
Qed.

Lemma placement_on_miss_witness :
  ∃ p,
    heap (acquire offload_host ImageEditing "model-A" None initial_state).1
      !! 0 = Some p ∧
    pipe_cpu_offload p = true ∧ pipe_device p = Some Cpu.
Proof.
  apply (placement_on_miss offload_host ImageEditing "model-A" None
           initial_state
           (acquire offload_host ImageEditing "model-A" None initial_state).1
           0).
  - reflexivity.
  - vm_compute. reflexivity.
Defined.

(** C6, as stated, fails for the upscaler: with the offload setting
    enabled its pipeline gets no offload staging and is placed on the
    selected device. *)
Lemma upscaler_ignores_offload :
  is_use_cpu_offload_enabled offload_host = true ∧
  ∃ p,
    heap (acquire offload_host Upscaler
            "stabilityai/stable-diffusion-x4-upscaler" None initial_state).1
      !! 0 = Some p ∧
    pipe_cpu_offload p = false ∧ pipe_device p = Some Cuda.
Proof.
  split; [vm_compute; reflexivity|].
  eexists. vm_compute. repeat split; reflexivity.
Qed.

(** C7, as the code has it.  The keywords ask for a 4-bit configuration of
    type nf4 on every machine, and for double quantization exactly when
    CUDA is available: a machine whose device is XPU is asked, like a
    CPU-only machine, for none.  (Nothing is stated of the compute
    precision, nor of the library accepting the call.) *)
Theorem get_bnb_4bit_config_by_cuda h :
  load_in_4bit (get_bnb_4bit_config h) = true ∧
  bnb_4bit_quant_type (get_bnb_4bit_config h) = "nf4" ∧
  (bnb_4bit_use_double_quant (get_bnb_4bit_config h) = true ↔
   get_device h = Cuda) ∧
  (bnb_4bit_use_double_quant (get_bnb_4bit_config h) = false ↔
   get_device h = Xpu ∨ get_device h = Cpu).
Proof.
  unfold get_bnb_4bit_config, get_device.
  destruct (cuda_is_available h), (xpu_is_available h); simpl;
    (split; [done|]); (split; [done|]); split; split; intros Hdev;
    try done; try (by left); try (by right); destruct Hdev; done.
Qed.

(** C7, as stated, fails on an accelerator that is not CUDA: double
    quantization is not asked for. *)
Lemma xpu_gets_coarse_quantization :
  get_device xpu_host = Xpu ∧
  bnb_4bit_use_double_quant (get_bnb_4bit_config xpu_host) = false.
Proof. vm_compute. split; reflexivity. Qed.

(** C8, as the code has it.  One of three cases holds: the explicit token
    is a non-empty string and is the result, whatever the environment
    provides; or the explicit token is absent or empty and the result is
    the value of the first of the four variables, in their fixed order,
    that is set to a non-empty string; or it is absent or empty, no
    variable is set to a non-empty string, and the result is [None].  The
    function is total: it never raises. *)
Theorem resolve_hf_token_precedence h hf_token :
  (∃ t, hf_token = Some t ∧ t ≠ "" ∧ resolve_hf_token h hf_token = Some t) ∨
  ((hf_token = None ∨ hf_token = Some "") ∧
   ∃ pre v post val,
     token_env_vars = pre ++ v :: post ∧
     Forall (λ u, environ h !! u = None ∨ environ h !! u = Some "") pre ∧
     environ h !! v = Some val ∧ val ≠ "" ∧
     resolve_hf_token h hf_token = Some val) ∨
  ((hf_token = None ∨ hf_token = Some "") ∧
   Forall (λ u, environ h !! u = None ∨ environ h !! u = Some "")
     token_env_vars ∧
   resolve_hf_token h hf_token = None).
Proof.
  unfold resolve_hf_token. destruct (truthy hf_token) eqn:Ht.
  - left. apply truthy_true in Ht as (t & -> & Hne). by exists t.
  - right. apply truthy_false in Ht.
    destruct (first_env_token_cases (environ h) token_env_vars)
      as [(pre & v & post & val & Hsplit & Hpre & Hv & Hne & Hres)
         | [Hall Hres]].
    + left. split; [done|]. by exists pre, v, post, val.
    + right. done.
Qed.

(** C8, as stated, fails on an explicit token that is the empty string:
    the environment's token is returned instead. *)
Lemma empty_explicit_token_falls_back :
  resolve_hf_token token_host (Some "") = Some "E".
Proof. vm_compute. reflexivity. Qed.

(** C9, as the code has it.  The policy is reload exactly when the key
    [model_load_retentation_strategy] holds the string [reload], and keep
    when that key is absent; the offload flag is the boolean held by the
    key [use_cpu_offloading], and false when that key is absent. *)
Theorem settings_flags h :
  (retention h = Reload ↔
   settings h !! "model_load_retentation_strategy" = Some (JStr "reload")) ∧
  (settings h !! "model_load_retentation_strategy" = None →
   retention h = Keep) ∧
  (∀ b, settings h !! "use_cpu_offloading" = Some (JBool b) →
        is_use_cpu_offload_enabled h = b) ∧
  (settings h !! "use_cpu_offloading" = None →
   is_use_cpu_offload_enabled h = false).
Proof.
  unfold retention, is_model_retentation_reload, is_use_cpu_offload_enabled,
    get_setting.
  split; [|split; [|split]].
  - destruct (settings h !! "model_load_retentation_strategy") as [v|];
      simpl; [|done].
    destruct v; simpl; try done.
    case_bool_decide as Hs; [by rewrite Hs | split; [done|]].
    intros [= Hs']. by destruct Hs.
  - by intros ->.
  - intros b Hb. by rewrite Hb.
  - by intros ->.
Qed.

(** C9, as stated, fails: the key [model_load_retention_strategy] may hold
    [reload] while the policy the code reads is keep. *)
Lemma retention_key_is_spelled_retentation :
  settings (quiet_host false false ∅ respelled_settings)
    !! "model_load_retention_strategy" = Some (JStr "reload") ∧
  retention (quiet_host false false ∅ respelled_settings) = Keep.
Proof. vm_compute. split; reflexivity. Qed.




(** * Further properties *)

(** ** The settings file *)

Lemma load_created (d : SettingsFile.Disk) :
  SettingsFile.load (SettingsFile.create_preference_file_if_not_exists d).1
  = SettingsFile.load d.
Proof. by destruct d. Qed.

(** X1.  Writing a setting and reading it back gives the value written,
    whether the key was there or not and whether the file existed or not,
    and no other key reads differently. *)
Theorem setting_written_is_read key value d :
  (SettingsFile.get_setting key
     (SettingsFile.add_or_update_setting key value d).1).2 = value ∧
  (SettingsFile.get_setting key (SettingsFile.add_setting key value d).1).2
  = value ∧
  ∀ other, other ≠ key →
    (SettingsFile.get_setting other
       (SettingsFile.add_or_update_setting key value d).1).2
    = (SettingsFile.get_setting other d).2.
Proof.
  unfold SettingsFile.get_setting, SettingsFile.add_or_update_setting,
    SettingsFile.add_setting. simpl.
  rewrite lookup_insert_eq. repeat split.
  intros other Hne. rewrite lookup_insert_ne by done.
  by rewrite !load_created.
Qed.

(** X2.  Removing a setting answers whether the key was there; afterwards
    the key is gone and reads as [None], and every other key is there, or
    not, with the value it had. *)
Theorem setting_removed_is_gone key d :
  (SettingsFile.remove_setting key d).2
  = (SettingsFile.is_settings_exists key d).2 ∧
  (SettingsFile.is_settings_exists key
     (SettingsFile.remove_setting key d).1).2 = false ∧
  (SettingsFile.get_setting key (SettingsFile.remove_setting key d).1).2
  = JNull ∧
  ∀ other, other ≠ key →
    (SettingsFile.is_settings_exists other
       (SettingsFile.remove_setting key d).1).2
    = (SettingsFile.is_settings_exists other d).2 ∧
    (SettingsFile.get_setting other (SettingsFile.remove_setting key d).1).2
    = (SettingsFile.get_setting other d).2.
Proof.
  unfold SettingsFile.remove_setting, SettingsFile.is_settings_exists,
    SettingsFile.get_setting. simpl. rewrite !load_created.
  case_bool_decide as Hin; simpl.
  - rewrite lookup_delete_eq. repeat split.
    + by rewrite lookup_delete_ne.
    + by rewrite lookup_delete_ne.
  - rewrite !load_created. rewrite bool_decide_false by done.
    apply eq_None_not_Some in Hin. rewrite Hin. done.
Qed.

(** X3.  Updating changes a setting only if its key is already there: the
    answer says whether it was, and when it was not the stored settings are
    what they were. *)
Theorem update_needs_existing_key key value d :
  (SettingsFile.update_setting key value d).2
  = (SettingsFile.is_settings_exists key d).2 ∧
  (SettingsFile.get_all_settings (SettingsFile.update_setting key value d).1).2
  = if (SettingsFile.is_settings_exists key d).2
    then <[key := value]> (SettingsFile.get_all_settings d).2
    else (SettingsFile.get_all_settings d).2.
Proof.
  unfold SettingsFile.update_setting, SettingsFile.is_settings_exists,
    SettingsFile.get_all_settings. simpl. rewrite !load_created.
  case_bool_decide; simpl; [done|]. by rewrite !load_created.
Qed.


(** ** The settings endpoints and the loader *)

(** X5.  The retention setting is validated before anything is stored: a
    request on the key [model_load_retentation_strategy] passes only with
    the string [keep] or [reload], and the policy the loaders read from the
    file it leaves is reload exactly when [reload] was posted; any other
    value, or none, is answered 400 and the file is not touched. *)
Theorem retention_setting_validated value d :
  (∀ d' msg,
     AdminEndpoints.set_setting "model_load_retentation_strategy" value d
     = (d', inr msg) →
     (value !! "value" = Some (JStr "keep") ∨
      value !! "value" = Some (JStr "reload")) ∧
     ∀ h, retention (with_settings h (SettingsFile.load d')) = Reload ↔
          value !! "value" = Some (JStr "reload")) ∧
  (value !! "value" ≠ Some (JStr "keep") →
   value !! "value" ≠ Some (JStr "reload") →
   ∃ e, AdminEndpoints.set_setting "model_load_retentation_strategy" value d
        = (d, inl e) ∧ status_code e = 400).
Proof.
  unfold AdminEndpoints.set_setting, SettingsFile.add_or_update_setting.
  rewrite bool_decide_false by done. rewrite bool_decide_true by done.
  split.
  - intros d' msg Hset.
    destruct (value !! "value") as [v|]; simpl in Hset; [|done].
    destruct v; simpl in Hset; try done.
    destruct (decide (s = "keep")) as [->|Hk].
    + injection Hset as <- _. split; [by left|]. intros h.
      unfold retention, is_model_retentation_reload, get_setting. simpl.
      rewrite lookup_insert_eq. simpl. done.
    + destruct (decide (s = "reload")) as [->|Hr].
      * injection Hset as <- _. split; [by right|]. intros h.
        unfold retention, is_model_retentation_reload, get_setting. simpl.
        rewrite lookup_insert_eq. simpl. done.
      * rewrite !bool_decide_false in Hset by done. done.
  - intros Hk Hr. eexists.
    destruct (value !! "value") as [v|]; simpl; [|done].
    destruct v; simpl; try done.
    rewrite !bool_decide_false by congruence. done.
Qed.

(** X6.  The offload setting is validated the same way, by Python's
    equality: a request on the key [use_cpu_offloading] passes exactly when
    the posted value equals [True] or [False], which the booleans, the
    integers 1 and 0 and the floats 1.0 and 0.0 do; the posted value is
    then stored and the loaders read the flag as enabled exactly when it
    equals [True].  Anything else, a missing value included, is answered
    400 and the file is not touched. *)
Theorem offload_setting_validated value d :
  (eq_True (default JNull (value !! "value")) ||
   eq_False (default JNull (value !! "value")) = true →
   ∃ d' msg,
     AdminEndpoints.set_setting "use_cpu_offloading" value d = (d', inr msg) ∧
     SettingsFile.load d' !! "use_cpu_offloading"
     = Some (default JNull (value !! "value")) ∧
     ∀ h, is_use_cpu_offload_enabled (with_settings h (SettingsFile.load d'))
          = eq_True (default JNull (value !! "value"))) ∧
  (eq_True (default JNull (value !! "value")) ||
   eq_False (default JNull (value !! "value")) = false →
   ∃ e, AdminEndpoints.set_setting "use_cpu_offloading" value d = (d, inl e) ∧
        status_code e = 400) ∧
  Forall (λ v, eq_True v || eq_False v = true)
    [JBool true; JBool false; JInt 1; JInt 0; JFloat 1; JFloat 0] ∧
  Forall (λ v, eq_True v || eq_False v = false)
    [JNull; JStr "true"; JStr "false"; JInt 2].
Proof.
  unfold AdminEndpoints.set_setting, SettingsFile.add_or_update_setting.
  rewrite bool_decide_true by done.
  split; [|split; [|split]].
  - intros Hv. rewrite Hv. simpl. do 2 eexists. split; [reflexivity|].
    simpl. rewrite lookup_insert_eq. split; [done|]. intros h.
    unfold is_use_cpu_offload_enabled, get_setting. simpl.
    by rewrite lookup_insert_eq.
  - intros Hv. rewrite Hv. simpl. by eexists.
  - repeat constructor.
  - repeat constructor.
Qed.

(** X7.  No other key is validated, and a request without a [value]
    member stores [None]: the key then exists in the file, yet the reading
    endpoint answers 404 for it. *)
Theorem null_setting_exists_but_is_not_found key value d :
  key ≠ "use_cpu_offloading" →
  key ≠ "model_load_retentation_strategy" →
  default JNull (value !! "value") = JNull →
  ∃ d' msg,
    AdminEndpoints.set_setting key value d = (d', inr msg) ∧
    (SettingsFile.is_settings_exists key d').2 = true ∧
    ∃ e, AdminEndpoints.get_setting_endpoint key d' = (d', inl e) ∧
         status_code e = 404.
Proof.
  intros Hk1 Hk2 Hnull.
  unfold AdminEndpoints.set_setting, SettingsFile.add_or_update_setting,
    AdminEndpoints.get_setting_endpoint, SettingsFile.get_setting,
    SettingsFile.is_settings_exists.
  rewrite !bool_decide_false by done. rewrite Hnull. simpl.
  do 2 eexists. split; [reflexivity|]. simpl.
  rewrite lookup_insert_eq. simpl. split; [done|]. by eexists.
Qed.

Lemma null_setting_exists_but_is_not_found_witness :
  ∃ d' msg,
    AdminEndpoints.set_setting "theme" ∅ None = (d', inr msg) ∧
    (SettingsFile.is_settings_exists "theme" d').2 = true ∧
    ∃ e, AdminEndpoints.get_setting_endpoint "theme" d' = (d', inl e) ∧
         status_code e = 404.
Proof.
  apply null_setting_exists_but_is_not_found; [intros [=] | intros [=] | done].
Defined.

(** ** API keys *)

Lemma remove_first_other (x y : string) (l : list string) :
  y ≠ x → y ∈ Security.remove_first x l ↔ y ∈ l.
Proof.
  intros Hne. induction l as [|z l IH]; simpl; [done|].
  case_bool_decide as Hz.
  - subst z. rewrite elem_of_cons. naive_solver.
  - rewrite !elem_of_cons, IH. done.
Qed.

Lemma remove_first_subset (x y : string) (l : list string) :
  y ∈ Security.remove_first x l → y ∈ l.
Proof.
  induction l as [|z l IH]; simpl; [done|].
  case_bool_decide as Hz; rewrite !elem_of_cons; naive_solver.
Qed.

Lemma remove_first_NoDup (x : string) (l : list string) :
  NoDup l → NoDup (Security.remove_first x l) ∧ x ∉ Security.remove_first x l.
Proof.
  induction 1 as [|z l Hz Hl IH]; simpl.
  - split; [constructor | by intros ?%elem_of_nil].
  - case_bool_decide as Heq.
    + subst z. done.
    + destruct IH as [IH1 IH2]. split.
      * constructor; [|done]. intros Hin. by apply Hz, (remove_first_subset x).
      * rewrite elem_of_cons. naive_solver.
Qed.

(** X8.  When the file can be written, a key that was added is valid, the
    keys that were valid stay valid, adding a key twice is adding it once,
    and a list without duplicates stays without duplicates. *)
Theorem added_key_is_valid api_key f :
  Security.is_valid_api_key api_key (Security.add_api_key true api_key f)
  = true ∧
  (∀ other, Security.is_valid_api_key other f = true →
            Security.is_valid_api_key other
              (Security.add_api_key true api_key f) = true) ∧
  Security.add_api_key true api_key (Security.add_api_key true api_key f)
  = Security.add_api_key true api_key f ∧
  (NoDup (Security.load_api_keys f) →
   NoDup (Security.load_api_keys (Security.add_api_key true api_key f))).
Proof.
  unfold Security.is_valid_api_key, Security.add_api_key. simpl.
  destruct (decide (api_key ∈ Security.load_api_keys f)) as [Hin|Hin].
  - rewrite !(bool_decide_true (api_key ∈ Security.load_api_keys f)) by done.
    simpl. done.
  - rewrite !(bool_decide_false (api_key ∈ Security.load_api_keys f)) by done.
    simpl.
    rewrite !(bool_decide_true
                (api_key ∈ Security.load_api_keys f ++ [api_key]))
      by set_solver.
    simpl. split; [done|]. split; [|split; [done|]].
    + intros other Hother%bool_decide_eq_true. apply bool_decide_eq_true.
      set_solver.
    + intros Hnd. apply list.NoDup_app. split; [done|].
      split; [|apply NoDup_singleton].
      intros x Hx Hx'%list_elem_of_singleton. by subst x.
Qed.

(** X9.  Removing a key answers whether the key was valid, whether or not
    the file could be written.  When it can be written, the validity of
    every other key is untouched; and if the list had no duplicates the
    removed key is no longer valid and the list still has none. *)
Theorem removed_key_is_invalid writable api_key f :
  (Security.remove_api_key writable api_key f).2
  = Security.is_valid_api_key api_key f ∧
  (∀ other, other ≠ api_key →
     Security.is_valid_api_key other
       (Security.remove_api_key true api_key f).1
     = Security.is_valid_api_key other f) ∧
  (NoDup (Security.load_api_keys f) →
   Security.is_valid_api_key api_key
     (Security.remove_api_key true api_key f).1 = false ∧
   NoDup (Security.load_api_keys (Security.remove_api_key true api_key f).1)).
Proof.
  unfold Security.is_valid_api_key, Security.remove_api_key. simpl.
  case_bool_decide as Hin; simpl; repeat split; try done.
  - intros other Hne. apply bool_decide_ext. by apply remove_first_other.
  - apply bool_decide_eq_false. by apply remove_first_NoDup.
  - by apply remove_first_NoDup.
  - by apply bool_decide_eq_false.
Qed.

(** X10.  A key that the creation endpoint has stored passes the key check
    of the generation endpoints, and, the list being without duplicates, it
    is refused with 401 once the revocation endpoint has removed it. *)
Theorem created_key_passes_until_revoked generated f :
  generated ≠ "" →
  NoDup (Security.load_api_keys f) →
  Dependencies.validate_api_key
    (AdminEndpoints.create_api_key true generated f).1 (Some generated)
  = inr generated ∧
  ∃ e,
    Dependencies.validate_api_key
      (AdminEndpoints.revoke_api_key true generated
         (AdminEndpoints.create_api_key true generated f).1).1
      (Some generated)
    = inl e ∧
    status_code e = 401.
Proof.
  intros Hne Hnd.
  destruct (added_key_is_valid generated f) as (Hvalid & _ & _ & Hnd').
  specialize (Hnd' Hnd).
  destruct (removed_key_is_invalid true generated
              (Security.add_api_key true generated f))
    as (Hanswer & _ & Hgone).
  destruct (Hgone Hnd') as [Hinvalid _].
  unfold Dependencies.validate_api_key, AdminEndpoints.create_api_key,
    AdminEndpoints.revoke_api_key.
  simpl. rewrite bool_decide_false by done. rewrite Hvalid. simpl.
  split; [done|].
  destruct (Security.remove_api_key true generated
              (Security.add_api_key true generated f)) as [f' removed].
  simpl in *. rewrite Hvalid in Hanswer. subst removed. simpl.
  rewrite Hinvalid. simpl. by eexists.
Qed.

Lemma created_key_passes_until_revoked_witness :
  Dependencies.validate_api_key
    (AdminEndpoints.create_api_key true "k1" (Security.Stored ["k0"])).1
    (Some "k1")
  = inr "k1".
Proof.
  apply (created_key_passes_until_revoked "k1" (Security.Stored ["k0"])).
  - intros [=].
  - apply NoDup_singleton.
Defined.

(** X11.  When the key file cannot be written, revoking a valid key is
    still answered as a success, and the key still passes the key check. *)
Theorem failed_write_revokes_nothing api_key f :
  api_key ≠ "" →
  Security.is_valid_api_key api_key f = true →
  AdminEndpoints.revoke_api_key false api_key f
  = (f, inr "API key revoked successfully") ∧
  Dependencies.validate_api_key
    (AdminEndpoints.revoke_api_key false api_key f).1 (Some api_key)
  = inr api_key.
Proof.
  intros Hne Hvalid.
  unfold AdminEndpoints.revoke_api_key, Security.remove_api_key,
    Dependencies.validate_api_key.
  unfold Security.is_valid_api_key in Hvalid. rewrite Hvalid. simpl.
  split; [done|].
  rewrite bool_decide_false by done.
  unfold Security.is_valid_api_key. by rewrite Hvalid.
Qed.

Lemma failed_write_revokes_nothing_witness :
  AdminEndpoints.revoke_api_key false "k0" (Security.Stored ["k0"])
  = (Security.Stored ["k0"], inr "API key revoked successfully").
Proof.
  apply (failed_write_revokes_nothing "k0" (Security.Stored ["k0"])).
  - intros [=].
  - vm_compute. reflexivity.
Defined.

(** X12.  The admin check passes exactly when the header is a non-empty
    string and [ADMIN_API_KEY] is set to that string; when the variable is
    unset or empty the answer is 500 whatever the header, and every other
    refusal is 401. *)
Theorem admin_key_check env x_api_key :
  (∀ key, AdminEndpoints.validate_admin_key env x_api_key = inr key ↔
          x_api_key = Some key ∧ key ≠ "" ∧
          env !! "ADMIN_API_KEY" = Some key) ∧
  (∀ e, AdminEndpoints.validate_admin_key env x_api_key = inl e →
        status_code e =
          if truthy (env !! "ADMIN_API_KEY") then 401 else 500).
Proof.
  unfold AdminEndpoints.validate_admin_key, Security.get_admin_key.
  destruct (truthy (env !! "ADMIN_API_KEY")) eqn:Hadmin; simpl.
  - apply truthy_true in Hadmin as (admin & Hadmin & Hne).
    rewrite Hadmin. destruct x_api_key as [hdr|]; [|split; [|by intros e [= <-]]].
    + case_bool_decide as Hempty; [subst hdr|].
      { split; [|by intros e [= <-]]. intros key. split; [done|].
        intros ([= <-] & Hk & _). done. }
      case_bool_decide as Hdiff.
      { split; [|by intros e [= <-]]. intros key. split; [done|].
        intros ([= <-] & _ & [= <-]). done. }
      split; [|done]. intros key. split.
      * intros [= <-]. injection Hdiff as ->. done.
      * by intros ([= <-] & _ & _).
    + intros key. split; [done|]. by intros ([=] & _).
  - apply truthy_false in Hadmin. split; [|by intros e [= <-]].
    intros key. split; [done|].
    intros (_ & Hk & Henv). destruct Hadmin as [Hn|Hn]; rewrite Henv in Hn.
    + done.
    + injection Hn as ->. done.
Qed.

(** X13.  The two admin checks of the repository, the one of
    [api/dependencies.py] and the one of [api/admin_endpoints.py], pass the
    same requests with the same key and refuse the others with the same
    status; only the wording of the refusal differs. *)
Theorem admin_checks_agree env x_api_key :
  match AdminEndpoints.validate_admin_key env x_api_key,
        Dependencies.validate_admin_key env x_api_key with
  | inr key, inr key' => key = key'
  | inl e, inl e' => status_code e = status_code e'
  | _, _ => False
  end.
Proof.
  unfold AdminEndpoints.validate_admin_key, Dependencies.validate_admin_key.
  destruct (truthy (Security.get_admin_key env)); simpl; [|done].
  destruct x_api_key as [hdr|]; [|done].
  repeat case_bool_decide; simpl; done.
Qed.

(** X14.  Started on a key file that yields no key, the service draws an
    admin key, publishes it in [ADMIN_API_KEY] and stores it as the only
    API key: the drawn key passes the admin check and the key check. *)
Theorem first_start_creates_admin_key generated env f :
  Security.load_api_keys f = [] →
  generated ≠ "" →
  AdminEndpoints.validate_admin_key
    (Security.initialize_api_keys true generated env f).1 (Some generated)
  = inr generated ∧
  Dependencies.validate_api_key
    (Security.initialize_api_keys true generated env f).2 (Some generated)
  = inr generated ∧
  Security.load_api_keys (Security.initialize_api_keys true generated env f).2
  = [generated].
Proof.
  intros Hempty Hne.
  unfold Security.initialize_api_keys, Security.create_admin_key,
    Security.add_api_key.
  rewrite Hempty. simpl. split; [|split; [|done]].
  - apply admin_key_check. split; [done|]. split; [done|].
    by rewrite lookup_insert_eq.
  - unfold Security.is_valid_api_key. simpl.
    rewrite bool_decide_false by done.
    by rewrite bool_decide_true by by apply list_elem_of_singleton.
Qed.

Lemma first_start_creates_admin_key_witness :
  Security.load_api_keys
    (Security.initialize_api_keys true "secret" ∅ Security.NoFile).2
  = ["secret"].
Proof.
  apply (first_start_creates_admin_key "secret" ∅ Security.NoFile).
  - reflexivity.
  - intros [=].
Defined.

(** X15.  Started on a key file that already holds keys, the service draws
    nothing and changes nothing; if [ADMIN_API_KEY] is not set in its
    environment, every admin request is then answered 500. *)
Theorem later_start_without_admin_key writable generated env f :
  Security.load_api_keys f ≠ [] →
  env !! "ADMIN_API_KEY" = None →
  Security.initialize_api_keys writable generated env f = (env, f) ∧
  ∀ x_api_key, ∃ e,
    AdminEndpoints.validate_admin_key
      (Security.initialize_api_keys writable generated env f).1 x_api_key
    = inl e ∧
    status_code e = 500.
Proof.
  intros Hkeys Henv.
  assert (Security.initialize_api_keys writable generated env f = (env, f))
    as Hinit.
  { unfold Security.initialize_api_keys.
    by destruct (Security.load_api_keys f). }
  rewrite Hinit. split; [done|]. intros x_api_key. simpl.
  unfold AdminEndpoints.validate_admin_key, Security.get_admin_key.
  rewrite Henv. simpl. by eexists.
Qed.

Lemma later_start_without_admin_key_witness :
  Security.initialize_api_keys true "secret" ∅ (Security.Stored ["k0"])
  = (∅, Security.Stored ["k0"]).
Proof.
  apply (later_start_without_admin_key true "secret" ∅
           (Security.Stored ["k0"])).
  - intros [=].
  - reflexivity.
Defined.

(** ** What a loader builds *)

Ltac unfold_acquire :=
  unfold acquire, get_or_load_model, get_or_load_image_editing_model,
    get_or_load_upscaler_model, create_sd3_transformer_2d_model_4bit,
    from_pretrained, enable_model_cpu_offload, enable_vae_tiling,
    enable_vae_slicing, to;
  unfold_M.

(** Case analysis on the next library call of the goal, whatever follows. *)
Ltac next_call :=
  match goal with
  | |- context [match ?o with Some _ => _ | None => _ end] =>
      lazymatch type of o with
      | option Exn => destruct o; simpl
      end
  end.

Lemma acquire_builds h c identifier token st st' a :
  miss c identifier st →
  acquire h c identifier token st = (st', inr a) →
  a = length (heap st) ∧ heap st' = heap st ++ [built h c identifier token].
Proof.
  unfold miss. intros Hmiss. unfold built, transformer_for.
  destruct c; simpl in Hmiss; unfold_acquire; rewrite Hmiss.
  all: destruct (is_switch _ _ _); simpl.
  all: try destruct (contains "sd3" (lower identifier)); simpl.
  all: try destruct (is_use_cpu_offload_enabled h); simpl.
  all: repeat first
         [ next_call; [by intros [=]|]
         | erewrite method_fresh; [ | simpl; reflexivity | reflexivity ] ].
  all: destruct (is_model_retentation_reload h); simpl.
  all: intros [= <- <-]; split; reflexivity.
Qed.

Lemma acquire_heap_grows h c identifier token st :
  ∃ extra,
    heap (acquire h c identifier token st).1 = heap st ++ extra ∧
    length extra ≤ 1.
Proof.
  destruct c; unfold_acquire.
  all: destruct (cache_hit _ _ _); simpl;
         [exists []; rewrite app_nil_r; split; [done | simpl; lia]|].
  all: destruct (is_switch _ _ _); simpl.
  all: try destruct (contains "sd3" (lower identifier)); simpl.
  all: try destruct (is_use_cpu_offload_enabled h); simpl.
  all: repeat first
         [ next_call;
           [ first [ exists []; rewrite app_nil_r; split; [done | simpl; lia]
                   | eexists [_]; split; [done | simpl; lia] ] | ]
         | erewrite method_fresh; [ | simpl; reflexivity | reflexivity ] ].
  all: destruct (is_model_retentation_reload h); simpl.
  all: eexists [_]; split; [done | simpl; lia].
Qed.

Lemma prefix_app (p s : string) :
  String.prefix p s = true ↔ ∃ post, s = p +:+ post.
Proof.
  revert s. induction p as [|x p IH]; intros s.
  - split; [intros _; by exists s | intros _; by destruct s].
  - destruct s as [|y s]; simpl.
    { split; [intros [=] | intros [post [=]]]. }
    destruct (Ascii.ascii_dec x y) as [->|Hne].
    + rewrite IH. split; intros [post Hs]; exists post.
      * by rewrite Hs.
      * by injection Hs.
    + split; [intros [=]|]. intros [post Hs]. injection Hs as <- _.
      by destruct Hne.
Qed.

(** [contains] is the substring test. *)
Lemma contains_spec (needle s : string) :
  contains needle s = true ↔ ∃ pre post, s = pre +:+ needle +:+ post.
Proof.
  induction s as [|x s IH].
  - change (contains needle "") with (String.prefix needle "" || false).
    rewrite orb_false_r, prefix_app. split.
    + intros [post Hs]. by exists "", post.
    + intros (pre & post & Hs). destruct pre; [by exists post | done].
  - change (contains needle (String x s))
      with (String.prefix needle (String x s) || contains needle s).
    rewrite orb_true_iff, prefix_app, IH. split.
    + intros [[post Hs] | (pre & post & Hs)].
      * by exists "", post.
      * exists (String x pre), post. simpl. by rewrite Hs.
    + intros (pre & post & Hs). destruct pre as [|y pre]; simpl in Hs.
      * left. by exists post.
      * right. injection Hs as -> ->. by exists pre, post.
Qed.

(** X16.  The pipeline an acquire returns from a miss was asked of the
    library for the requested identifier, in half precision exactly when
    CUDA is available (so in full precision on an XPU), from safetensors,
    and with the resolved token: an explicit non-empty token is the one
    used, whatever the environment provides. *)
Theorem loaded_pipeline_arguments h c X token st st' a :
  miss c X st →
  acquire h c X token st = (st', inr a) →
  ∃ p, heap st' !! a = Some p ∧
    pipe_class p = c ∧
    pipe_model_id p = X ∧
    pipe_torch_dtype p = (if cuda_is_available h then float16 else float32) ∧
    pipe_use_safetensors p = true ∧
    pipe_token p = resolve_hf_token h token ∧
    (∀ t, token = Some t → t ≠ "" → pipe_token p = Some t).
Proof.
  intros Hmiss Hacq.
  destruct (acquire_builds h c X token st st' a Hmiss Hacq) as [-> Hheap].
  exists (built h c X token). rewrite Hheap. split; [apply lookup_fresh|].
  assert (pipe_token (built h c X token) = resolve_hf_token h token) as Htok.
  { unfold built. destruct c; simpl; try done;
      by destruct (is_use_cpu_offload_enabled h). }
  repeat split.
  - unfold built. destruct c; simpl; try done;
      by destruct (is_use_cpu_offload_enabled h).
  - unfold built. destruct c; simpl; try done;
      by destruct (is_use_cpu_offload_enabled h).
  - unfold built, get_device.
    destruct c; simpl; try destruct (is_use_cpu_offload_enabled h); simpl;
      by destruct (cuda_is_available h), (xpu_is_available h).
  - unfold built. destruct c; simpl; try done;
      by destruct (is_use_cpu_offload_enabled h).
  - done.
  - intros t -> Hne. rewrite Htok. unfold resolve_hf_token. simpl.
    by rewrite bool_decide_false.
Qed.

Lemma loaded_pipeline_arguments_witness :
  ∃ p,
    heap (acquire xpu_host TextToImage "model-A" (Some "T") initial_state).1
      !! 0 = Some p ∧
    pipe_class p = TextToImage ∧
    pipe_model_id p = "model-A" ∧
    pipe_torch_dtype p = float32 ∧
    pipe_use_safetensors p = true ∧
    pipe_token p = Some "T" ∧
    (∀ t, Some "T" = Some t → t ≠ "" → pipe_token p = Some t).
Proof.
  apply (loaded_pipeline_arguments xpu_host TextToImage "model-A" (Some "T")
           initial_state
           (acquire xpu_host TextToImage "model-A" (Some "T")
              initial_state).1 0).
  - reflexivity.
  - vm_compute. reflexivity.
Defined.

(** X17.  The text-to-image and image-editing loaders always hand the
    pipeline a transformer, and enable neither VAE tiling nor slicing; the
    upscaler loader enables both and hands a transformer exactly when the
    lower-cased identifier contains [sd3].  A transformer, when there is
    one, was asked for the same identifier, from the subfolder
    [transformer], with the 4-bit configuration of the machine, the
    resolved token and the precision of the pipeline. *)
Theorem loaded_pipeline_transformer h c X token st st' a :
  miss c X st →
  acquire h c X token st = (st', inr a) →
  ∃ p, heap st' !! a = Some p ∧
    match c with
    | Upscaler =>
        (is_Some (pipe_transformer p) ↔
         ∃ pre post, lower X = pre +:+ "sd3" +:+ post) ∧
        pipe_vae_tiling p = true ∧ pipe_vae_slicing p = true
    | _ =>
        is_Some (pipe_transformer p) ∧
        pipe_vae_tiling p = false ∧ pipe_vae_slicing p = false
    end ∧
    ∀ tr, pipe_transformer p = Some tr →
      tr_model_id tr = X ∧
      tr_subfolder tr = "transformer" ∧
      tr_quantization_config tr = get_bnb_4bit_config h ∧
      tr_token tr = resolve_hf_token h token ∧
      tr_torch_dtype tr = pipe_torch_dtype p ∧
      tr_use_safetensors tr = true.
Proof.
  intros Hmiss Hacq.
  destruct (acquire_builds h c X token st st' a Hmiss Hacq) as [-> Hheap].
  exists (built h c X token). rewrite Hheap. split; [apply lookup_fresh|].
  unfold built. destruct c; simpl.
  - destruct (is_use_cpu_offload_enabled h); simpl;
      (split; [by repeat split|]); by intros tr [= <-].
  - destruct (is_use_cpu_offload_enabled h); simpl;
      (split; [by repeat split|]); by intros tr [= <-].
  - destruct (contains "sd3" (lower X)) eqn:Hsd3; simpl.
    + split; [|by intros tr [= <-]].
      split; [|done]. split; [|done]. intros _. by apply contains_spec.
    + split; [|by intros tr [=]].
      split; [|done]. split; [by intros [tr [=]]|].
      intros Hsub%contains_spec. congruence.
Qed.

Lemma loaded_pipeline_transformer_witness :
  ∃ p,
    heap (acquire keep_host Upscaler "stabilityai/SD3-upscaler" None
            initial_state).1 !! 0 = Some p ∧
    ((is_Some (pipe_transformer p) ↔
      ∃ pre post,
        lower "stabilityai/SD3-upscaler" = pre +:+ "sd3" +:+ post) ∧
     pipe_vae_tiling p = true ∧ pipe_vae_slicing p = true) ∧
    ∀ tr, pipe_transformer p = Some tr →
      tr_model_id tr = "stabilityai/SD3-upscaler" ∧
      tr_subfolder tr = "transformer" ∧
      tr_quantization_config tr = get_bnb_4bit_config keep_host ∧
      tr_token tr = resolve_hf_token keep_host None ∧
      tr_torch_dtype tr = pipe_torch_dtype p ∧
      tr_use_safetensors tr = true.
Proof.
  apply (loaded_pipeline_transformer keep_host Upscaler
           "stabilityai/SD3-upscaler" None initial_state
           (acquire keep_host Upscaler "stabilityai/SD3-upscaler" None
              initial_state).1 0).
  - reflexivity.
  - vm_compute. reflexivity.
Defined.

(** X18.  An acquire on one slot, whether it returns or raises, leaves the
    two other slots as they were, leaves every pipeline that existed as it
    was, and constructs one pipeline at most. *)
Theorem acquire_frame h c X token st :
  others_unchanged c st (acquire h c X token st).1 ∧
  (∀ a p, heap st !! a = Some p →
          heap (acquire h c X token st).1 !! a = Some p) ∧
  construction_count st ≤ construction_count (acquire h c X token st).1 ∧
  construction_count (acquire h c X token st).1 ≤ construction_count st + 1.
Proof.
  split.
  - destruct (acquire h c X token st) as [st' [err|a]] eqn:Hacq; simpl.
    + by apply acquire_raises_inv in Hacq as (_ & _ & _ & _ & Ho & _).
    + apply acquire_returns_inv in Hacq
        as [(-> & _) | (_ & _ & p & _ & _ & _ & Ho & _)]; done.
  - destruct (acquire_heap_grows h c X token st) as (extra & Hheap & Hlen).
    unfold construction_count. rewrite Hheap, length_app.
    split; [|lia]. intros a p Ha. by apply lookup_app_l_Some.
Qed.

(** ** Unloading, again *)

(** X19.  Unloading all models returns, leaves no slot with a cached
    instance, touches no pipeline object, and is idempotent: a second call
    changes nothing. *)
Theorem unload_models_empties_all st :
  (unload_models st).2 = inr tt ∧
  (∀ c, caches_nothing c (unload_models st).1) ∧
  heap (unload_models st).1 = heap st ∧
  unload_models (unload_models st).1 = ((unload_models st).1, inr tt).
Proof.
  destruct (unload_models_outcome st) as (st' & Hrun & Hheap & Hslots).
  rewrite Hrun. simpl. split; [done|]. split; [intros c; apply Hslots|].
  split; [done|].
  assert (∀ c, instance c st' = None) as Hnone by (intros c; apply Hslots).
  pose proof (Hnone TextToImage) as H1.
  pose proof (Hnone ImageEditing) as H2.
  pose proof (Hnone Upscaler) as H3.
  simpl in H1, H2, H3.
  unfold unload_models. unfold_M. rewrite H1. simpl. rewrite H2. simpl.
  rewrite H3. simpl. done.
Qed.

Lemma slots_distinct_heap st hp :
  length hp = length (heap st) →
  well_formed st ∧ slots_distinct st →
  well_formed (set_heap hp st) ∧ slots_distinct (set_heap hp st).
Proof.
  intros Hl [Hwf Hd]. split; [by apply well_formed_heap|].
  intros c c' a Hc Hc'. apply (Hd c c' a); by destruct c, c'.
Qed.

Lemma slots_distinct_acquire h c identifier token :
  preserves (λ st, well_formed st ∧ slots_distinct st)
    (acquire h c identifier token).
Proof.
  intros st [Hwf Hd].
  split; [by apply well_formed_acquire|].
  destruct (acquire h c identifier token st) as [st' [err|a]] eqn:Hacq; simpl.
  - apply acquire_raises_inv in Hacq as (_ & _ & Hm & _ & Ho & _).
    intros c1 c2 b H1 H2.
    destruct (decide (c1 = c)) as [->|Hne1]; [congruence|].
    destruct (decide (c2 = c)) as [->|Hne2]; [congruence|].
    destruct (Ho c1 Hne1) as [Hs1 _]. destruct (Ho c2 Hne2) as [Hs2 _].
    rewrite Hs1 in H1. rewrite Hs2 in H2. by apply (Hd c1 c2 b).
  - apply acquire_returns_inv in Hacq
      as [(-> & _ & _) | (_ & -> & p & _ & Hm & _ & Ho & _)]; [done|].
    assert (∀ c' b, c' ≠ c → instance c' st' = Some b → b < length (heap st))
      as Hold.
    { intros c' b Hne Hb. destruct (Ho c' Hne) as [Hs _].
      rewrite Hs in Hb. by apply (Hwf c'). }
    assert (∀ b, instance c st' = Some b → b = length (heap st)) as Hnew.
    { intros b Hb. rewrite Hm in Hb. destruct (retention h); congruence. }
    intros c1 c2 b H1 H2.
    destruct (decide (c1 = c)) as [->|Hne1];
      destruct (decide (c2 = c)) as [->|Hne2]; try done.
    + apply Hnew in H1. apply (Hold c2 b Hne2) in H2. lia.
    + apply Hnew in H2. apply (Hold c1 b Hne1) in H1. lia.
    + destruct (Ho c1 Hne1) as [Hs1 _]. destruct (Ho c2 Hne2) as [Hs2 _].
      rewrite Hs1 in H1. rewrite Hs2 in H2. by apply (Hd c1 c2 b).
Qed.

Lemma slots_distinct_unload_model model :
  preserves (λ st, well_formed st ∧ slots_distinct st) (unload_model model).
Proof.
  intros st [Hwf Hd]. split; [by apply well_formed_unload_model|].
  destruct (unload_model_outcome model st) as (st' & -> & _ & Hc). simpl.
  intros c1 c2 b H1 H2.
  destruct (Hc c1) as [[Hs1 _] | [Hn1 _]]; [|congruence].
  destruct (Hc c2) as [[Hs2 _] | [Hn2 _]]; [|congruence].
  rewrite Hs1 in H1. rewrite Hs2 in H2. by apply (Hd c1 c2 b).
Qed.

Lemma slots_distinct_unload_models :
  preserves (λ st, well_formed st ∧ slots_distinct st) unload_models.
Proof.
  intros st [Hwf Hd]. split; [by apply well_formed_unload_models|].
  destruct (unload_models_outcome st) as (st' & -> & _ & Hc). simpl.
  intros c1 c2 b H1 H2. destruct (Hc c1) as [Hn1 _]. congruence.
Qed.

Lemma reachable_slots_distinct st : reachable st → slots_distinct st.
Proof.
  intros [ops ->].
  apply (preserves_run (λ st, well_formed st ∧ slots_distinct st)
           slots_distinct_heap slots_distinct_acquire
           slots_distinct_unload_model slots_distinct_unload_models).
  split; intros c; by destruct c.
Qed.

(** X20.  In a state the service can reach no two slots hold the same
    object, so handing [unload_model] the instance that a slot caches
    clears both fields of that slot and leaves the two other slots and the
    heap as they were. *)
Theorem unload_cached_instance c a st :
  reachable st →
  instance c st = Some a →
  (unload_model (Some a) st).2 = inr tt ∧
  instance c (unload_model (Some a) st).1 = None ∧
  loaded_identifier c (unload_model (Some a) st).1 = None ∧
  others_unchanged c st (unload_model (Some a) st).1 ∧
  heap (unload_model (Some a) st).1 = heap st.
Proof.
  intros Hreach Ha. apply reachable_slots_distinct in Hreach.
  assert (∀ c', c' ≠ c → Some a ≠ instance c' st) as Hother.
  { intros c' Hne Heq. symmetry in Heq. by specialize (Hreach c c' a Ha Heq). }
  unfold unload_model. unfold_M.
  destruct c; simpl in Ha.
  - rewrite bool_decide_true by done. simpl.
    repeat split; try done; by destruct c'.
  - rewrite (bool_decide_false (Some a = _model st))
      by exact (Hother TextToImage ltac:(done)).
    rewrite bool_decide_true by done. simpl.
    repeat split; try done; by destruct c'.
  - rewrite (bool_decide_false (Some a = _model st))
      by exact (Hother TextToImage ltac:(done)).
    rewrite (bool_decide_false (Some a = _image_editing_model st))
      by exact (Hother ImageEditing ltac:(done)).
    rewrite bool_decide_true by done. simpl.
    repeat split; try done; by destruct c'.
Qed.

Lemma unload_cached_instance_witness :
  instance Upscaler
    (unload_model (Some 1)
       (run [OpAcquire keep_host TextToImage "model-A" None;
             OpAcquire keep_host Upscaler "model-U" None]
          initial_state)).1
  = None.
Proof.
  apply (unload_cached_instance Upscaler 1
           (run [OpAcquire keep_host TextToImage "model-A" None;
                 OpAcquire keep_host Upscaler "model-U" None]
              initial_state)).
  - by eexists.
  - vm_compute. reflexivity.
Defined.

(** ** Use cycles *)

Lemma never_raises_acquire_returns h c identifier token st :
  never_raises h →
  ∃ st' a, acquire h c identifier token st = (st', inr a).
Proof.
  intros (Ht & Hp & Ho & Hvt & Hvs & Hto & _).
  destruct (acquire h c identifier token st) as [st' [err|a]] eqn:Hacq;
    [|by eauto].
  apply acquire_raises_inv in Hacq as (_ & (cause & Hraises & _) & _).
  destruct Hraises as [[t He] | [[p He] | [[p He] | [[p He] | [[p He]
                      | (p & d & He)]]]]];
    rewrite ?Ht, ?Hp, ?Ho, ?Hvt, ?Hvs, ?Hto in He; done.
Qed.

Lemma call_quiet h a st :
  never_raises h → call h a st = (st, inr tt).
Proof.
  intros (_ & _ & _ & _ & _ & _ & Hcall). unfold call, method.
  destruct (heap st !! a) as [p|] eqn:Hp; [|done].
  rewrite Hcall, list_insert_id by done. by destruct st.
Qed.

Lemma release_keep h a st :
  retention h = Keep → release h a st = (st, inr tt).
Proof.
  unfold retention, release.
  by destruct (is_model_retentation_reload h).
Qed.

Lemma generate_text_to_image_quiet h X st st1 a :
  never_raises h →
  get_or_load_model h X None st = (st1, inr a) →
  generate_text_to_image h X st = release h a st1.
Proof.
  intros Hquiet Hacq. unfold generate_text_to_image. unfold_M.
  rewrite Hacq, (call_quiet h a st1 Hquiet).
  by destruct (release_outcome h a st1) as (st2 & -> & _).
Qed.

Lemma generate_cached_keep h X st a :
  never_raises h →
  retention h = Keep →
  instance TextToImage st = Some a →
  loaded_identifier TextToImage st = Some X →
  generate_text_to_image h X st = (st, inr tt).
Proof.
  intros Hquiet Hkeep Ha HX.
  rewrite (generate_text_to_image_quiet h X st st a Hquiet).
  - by apply release_keep.
  - by apply (acquire_hit h TextToImage).
Qed.

Lemma generate_reload h X st :
  never_raises h →
  retention h = Reload →
  caches_nothing TextToImage st →
  (generate_text_to_image h X st).2 = inr tt ∧
  caches_nothing TextToImage (generate_text_to_image h X st).1 ∧
  construction_count (generate_text_to_image h X st).1
  = construction_count st + 1.
Proof.
  unfold caches_nothing, construction_count. intros Hquiet Hreload Hempty.
  destruct (never_raises_acquire_returns h TextToImage X None st Hquiet)
    as (st1 & a & Hacq).
  rewrite (generate_text_to_image_quiet h X st st1 a Hquiet Hacq).
  apply acquire_returns_inv in Hacq
    as [(_ & Hm & _) | (_ & -> & p & Hhp & Hm & _)]; [congruence|].
  rewrite Hreload in Hm.
  destruct (release_outcome h (length (heap st)) st1)
    as (st2 & -> & Hhp2 & Hc2).
  simpl. split; [done|]. split.
  - destruct (Hc2 TextToImage) as [[Hsame _] | [Hnone _]];
      simpl in *; congruence.
  - rewrite Hhp2, Hhp, length_app. simpl. lia.
Qed.

(** X21.  The command-line tools load the text-to-image model once and
    then generate.  Under the keep policy, on a host where nothing raises,
    the load is the only construction: however many generations follow for
    the same identifier, the state is the one the load left, with the
    model cached. *)
Theorem keep_loads_once h X token n st :
  never_raises h →
  retention h = Keep →
  run (OpAcquire h TextToImage X token
         :: replicate n (OpGenerateTextToImage h X)) st
  = (acquire h TextToImage X token st).1 ∧
  is_Some (instance TextToImage (acquire h TextToImage X token st).1) ∧
  construction_count (acquire h TextToImage X token st).1
  ≤ construction_count st + 1.
Proof.
  intros Hquiet Hkeep.
  destruct (never_raises_acquire_returns h TextToImage X token st Hquiet)
    as (st1 & a & Hacq).
  assert (instance TextToImage st1 = Some a ∧
          loaded_identifier TextToImage st1 = Some X) as [Ha HX].
  { apply acquire_returns_inv in Hacq
      as [(-> & Hm & Hi) | (_ & -> & p & _ & Hm & Hi & _)]; [done|].
    by rewrite Hkeep in Hm. }
  split; [|split].
  - unfold run. simpl. fold (acquire h TextToImage X token st).
    rewrite Hacq. simpl. clear Hacq.
    induction n as [|n IH]; simpl; [done|].
    by rewrite (generate_cached_keep h X st1 a).
  - rewrite Hacq. by exists a.
  - apply acquire_frame.
Qed.

Lemma keep_loads_once_witness :
  run (OpAcquire keep_host TextToImage "model-A" None
         :: replicate 3 (OpGenerateTextToImage keep_host "model-A"))
    initial_state
  = (acquire keep_host TextToImage "model-A" None initial_state).1.
Proof.
  apply (keep_loads_once keep_host "model-A" None 3 initial_state).
  - by repeat split.
  - vm_compute. reflexivity.
Defined.

(** X22.  Under the reload policy, on a host where nothing raises and
    from a slot that caches nothing, the load at start-up is wasted: it and
    each of the [n] generations that follow construct a pipeline of their
    own, [n + 1] in all, and the slot caches nothing at the end. *)
Theorem reload_constructs_every_time h X token n st :
  never_raises h →
  retention h = Reload →
  caches_nothing TextToImage st →
  caches_nothing TextToImage
    (run (OpAcquire h TextToImage X token
            :: replicate n (OpGenerateTextToImage h X)) st) ∧
  construction_count
    (run (OpAcquire h TextToImage X token
            :: replicate n (OpGenerateTextToImage h X)) st)
  = construction_count st + 1 + n.
Proof.
  intros Hquiet Hreload Hempty.
  destruct (never_raises_acquire_returns h TextToImage X token st Hquiet)
    as (st1 & a & Hacq).
  assert (caches_nothing TextToImage st1 ∧
          construction_count st1 = construction_count st + 1) as [He1 Hc1].
  { unfold caches_nothing, construction_count in *.
    apply acquire_returns_inv in Hacq
      as [(_ & Hm & _) | (_ & _ & p & Hhp & Hm & _)]; [congruence|].
    rewrite Hreload in Hm. rewrite Hhp, length_app. simpl. split; [done|lia]. }
  unfold run. simpl. fold (acquire h TextToImage X token st).
  rewrite Hacq. simpl. rewrite <- Hc1. clear Hacq Hc1 Hempty.
  revert st1 He1. induction n as [|n IH]; intros st1 He1; simpl.
  - split; [done|lia].
  - destruct (generate_reload h X st1 Hquiet Hreload He1) as (_ & He2 & Hc2).
    destruct (IH _ He2) as [IH1 IH2]. split; [done|].
    rewrite IH2, Hc2. lia.
Qed.

Lemma reload_constructs_every_time_witness :
  construction_count
    (run (OpAcquire reload_host TextToImage "model-A" None
            :: replicate 2 (OpGenerateTextToImage reload_host "model-A"))
       initial_state)
  = construction_count initial_state + 1 + 2.
Proof.
  apply (reload_constructs_every_time reload_host "model-A" None 2
           initial_state).
  - by repeat split.
  - vm_compute. reflexivity.
  - reflexivity.
Defined.

(** X23.  An exception raised by the generation itself reaches the caller
    as it is, not wrapped like a load error; the clean-up is skipped and
    the state is the one the load left, so under the keep policy the model
    stays cached. *)
Theorem generation_error_is_not_wrapped h X st st1 a p e :
  get_or_load_model h X None st = (st1, inr a) →
  heap st1 !! a = Some p →
  call_raises h p = Some e →
  generate_text_to_image h X st = (st1, inl e).
Proof.
  intros Hacq Hp He. unfold generate_text_to_image. unfold_M.
  rewrite Hacq. unfold call, method. by rewrite Hp, He.
Qed.

Lemma generation_error_is_not_wrapped_witness :
  (generate_text_to_image
     (call_failing_host (LibraryError "out of memory") keep_settings)
     "model-A" initial_state).2
  = inl (LibraryError "out of memory").
Proof.
  pose proof (generation_error_is_not_wrapped
                (call_failing_host (LibraryError "out of memory")
                   keep_settings)
                "model-A" initial_state
                (get_or_load_model
                   (call_failing_host (LibraryError "out of memory")
                      keep_settings)
                   "model-A" None initial_state).1
                0
                (built
                   (call_failing_host (LibraryError "out of memory")
                      keep_settings)
                   TextToImage "model-A" None)
                (LibraryError "out of memory")) as Hthm.
  rewrite Hthm; [reflexivity | vm_compute; reflexivity
                | vm_compute; reflexivity | reflexivity].
Defined.

(** ** The command parser of the interactive shell *)

Lemma no_separator_cons c k :
  contains "=" (String c k) = false →
  String c EmptyString ≠ "=" ∧ contains "=" k = false.
Proof.
  change (contains "=" (String c k))
    with (String.prefix "=" (String c k) || contains "=" k).
  intros [Hp Hk]%orb_false_iff. split; [|done].
  intros [= ->]. simpl in Hp. by destruct k.
Qed.

Lemma split_once_app k v :
  contains "=" k = false →
  ImageGenShell.split_once (k +:+ "=" +:+ v) = (k, v).
Proof.
  induction k as [|c k IH]; intros Hk; simpl.
  - done.
  - apply no_separator_cons in Hk as [Hc Hk].
    rewrite bool_decide_false by done.
    specialize (IH Hk). simpl in IH. by rewrite IH.
Qed.

Lemma ascii_lower_idemp c : ascii_lower (ascii_lower c) = ascii_lower c.
Proof. destruct c as [[] [] [] [] [] [] [] []]; reflexivity. Qed.

Lemma lower_idemp s : lower (lower s) = lower s.
Proof.
  induction s as [|c s IH]; simpl; [done|].
  by rewrite ascii_lower_idemp, IH.
Qed.

(** X24.  A token without [=] contributes nothing: the dictionary is the
    one parsed from the other tokens. *)
Theorem token_without_separator_is_ignored str_strip str_lower before t after :
  contains "=" t = false →
  ImageGenShell.parse_kv str_strip str_lower (before ++ t :: after)
  = ImageGenShell.parse_kv str_strip str_lower (before ++ after).
Proof.
  intros Ht. unfold ImageGenShell.parse_kv. rewrite !foldl_app. simpl.
  unfold ImageGenShell.parse_token at 2. by rewrite Ht.
Qed.

Lemma token_without_separator_is_ignored_witness :
  ImageGenShell.parse_kv ImageGenShell.ascii_strip lower
    (["prompt=a"] ++ "help" :: ["output=b"])
  = ImageGenShell.parse_kv ImageGenShell.ascii_strip lower
      (["prompt=a"] ++ ["output=b"]).
Proof.
  apply (token_without_separator_is_ignored ImageGenShell.ascii_strip lower
           ["prompt=a"] "help" ["output=b"]).
  vm_compute. reflexivity.
Defined.

(** X25.  A token is cut at its first [=]: the key is what stands before
    it, stripped and lower-cased by Python, and the value is all that
    follows, further [=] included; it overrides what earlier tokens gave
    that key. *)
Theorem last_assignment_wins str_strip str_lower tokens k v :
  contains "=" k = false →
  ImageGenShell.parse_kv str_strip str_lower (tokens ++ [k +:+ "=" +:+ v])
  = <[str_lower (str_strip k) := v]>
      (ImageGenShell.parse_kv str_strip str_lower tokens).
Proof.
  intros Hk. unfold ImageGenShell.parse_kv. rewrite foldl_app. simpl.
  unfold ImageGenShell.parse_token at 1.
  assert (contains "=" (k +:+ "=" +:+ v) = true) as ->.
  { apply contains_spec. by exists k, v. }
  by rewrite split_once_app.
Qed.

Lemma last_assignment_wins_witness :
  ImageGenShell.parse_kv ImageGenShell.ascii_strip lower
    (["prompt=old"] ++ [" Prompt " +:+ "=" +:+ "a=b"])
  = <[lower (ImageGenShell.ascii_strip " Prompt ") := "a=b"]>
      (ImageGenShell.parse_kv ImageGenShell.ascii_strip lower ["prompt=old"]).
Proof.
  apply (last_assignment_wins ImageGenShell.ascii_strip lower
           ["prompt=old"] " Prompt " "a=b").
  vm_compute. reflexivity.
Defined.

(** X26.  Lower-casing being idempotent, every key of the dictionary is
    left as it is by it, whatever the tokens: the keys are in lower case,
    and a parameter is never found under a name with a capital. *)
Theorem parsed_keys_are_lower_case str_strip str_lower tokens k :
  (∀ s, str_lower (str_lower s) = str_lower s) →
  is_Some (ImageGenShell.parse_kv str_strip str_lower tokens !! k) →
  str_lower k = k.
Proof.
  intros Hidemp. unfold ImageGenShell.parse_kv.
  induction tokens as [|t tokens IH] using rev_ind; simpl.
  - rewrite lookup_empty. by intros [? [=]].
  - rewrite foldl_app. simpl. unfold ImageGenShell.parse_token at 1.
    destruct (contains "=" t); [|done].
    destruct (ImageGenShell.split_once t) as [key v].
    destruct (decide (k = str_lower (str_strip key))) as [->|Hne].
    + intros _. apply Hidemp.
    + by rewrite lookup_insert_ne.
Qed.

Lemma parsed_keys_are_lower_case_witness : lower "prompt" = "prompt".
Proof.
  apply (parsed_keys_are_lower_case ImageGenShell.ascii_strip lower
           ["PROMPT=x"] "prompt").
  - apply lower_idemp.
  - vm_compute. by eexists.
Defined.
